(** * roda-auth-service: the token lifecycle engine

    A shallow embedding of [app/services/auth_service.py],
    [app/repositories/user_repository.py], [app/utils/audit.py] and the
    SQLAlchemy models they use, followed by the properties of login,
    refresh, logout and verify.

    The database is a record of tables, each table a list of rows in
    insertion order.  Every repository method runs in a state-and-exception
    monad over that record; the service methods wrap their body in the
    [try ... except Exception] of the source and return plain tuples. *)

From Stdlib Require Import Ascii String List ZArith Bool Lia.
Import ListNotations.

Local Open Scope string_scope.
Local Open Scope Z_scope.

(** ** Data model *)

(** [app/schemas/user.py], [UserRole] and [UserStatus] (string enums). *)
Inductive UserRole := CUSTOMER | ADMIN | AGENT.

Definition UserRole_value (r : UserRole) : string :=
  match r with
  | CUSTOMER => "customer"
  | ADMIN => "admin"
  | AGENT => "agent"
  end.

Inductive UserStatus := ACTIVE | INACTIVE | SUSPENDED | PENDING_VERIFICATION.

(** [app/models/status_enum.py]: a second enum of the same name and
    members.  [user_repository.py] imports this one, while the [status]
    column of [User] is typed with the [UserStatus] of the schemas, so a
    member of this class is not a value the column accepts. *)
Module status_enum.
Inductive UserStatus := ACTIVE | INACTIVE | SUSPENDED | PENDING_VERIFICATION.
End status_enum.

(** Timestamps are seconds on the UTC time line. *)
Definition datetime := Z.

(** A Python dict with string keys, in insertion order. *)
Definition dict := list (string * string).

Fixpoint dict_get (d : dict) (k : string) : option string :=
  match d with
  | [] => None
  | (k', v) :: rest => if String.eqb k' k then Some v else dict_get rest k
  end.

(** Truth value of an [Optional[dict]]: [None] and [{}] are both falsy. *)
Definition truthy_dict (d : option dict) : bool :=
  match d with
  | Some (_ :: _) => true
  | _ => false
  end.

(** Truth value of an [Optional[str]]: [None] and [""] are both falsy. *)
Definition truthy_str (s : option string) : bool :=
  match s with
  | Some (String _ _) => true
  | _ => false
  end.

(** [app/models/user_model.py] *)
Module User.
Record t := mk {
  id : string;
  cedula : string;
  password_hash : string;
  first_name : string;
  last_name : string;
  phone : string;
  address : string;
  profile_photo_url : option string;
  document_front_url : option string;
  document_back_url : option string;
  role : UserRole;
  status : UserStatus;
  is_verified : bool;
  created_at : option datetime;
  updated_at : option datetime;
  last_login : option datetime
}.

(** The row after an UPDATE that sets [last_login]: [updated_at] is not in
    the SET clause, so its [onupdate=func.now()] fires. *)
Definition with_last_login (u : t) (v : option datetime) (db_now : datetime) : t :=
  mk (id u) (cedula u) (password_hash u) (first_name u) (last_name u)
     (phone u) (address u) (profile_photo_url u) (document_front_url u)
     (document_back_url u) (role u) (status u) (is_verified u)
     (created_at u) (Some db_now) v.

(** The row after an UPDATE that sets [status] and [is_verified]; as for
    [last_login], [updated_at] takes the database's current time. *)
Definition with_status (u : t) (s : UserStatus) (v : bool) (db_now : datetime) : t :=
  mk (id u) (cedula u) (password_hash u) (first_name u) (last_name u)
     (phone u) (address u) (profile_photo_url u) (document_front_url u)
     (document_back_url u) (role u) s v
     (created_at u) (Some db_now) (last_login u).
End User.

(** [app/models/refresh_token_model.py] *)
Module RefreshToken.
Record t := mk {
  id : string;
  user_id : string;
  token : string;
  expires_at : datetime;
  is_revoked : bool;
  created_at : option datetime;
  created_by_ip : option string
}.

Definition with_is_revoked (r : t) (b : bool) : t :=
  mk (id r) (user_id r) (token r) (expires_at r) b (created_at r)
     (created_by_ip r).
End RefreshToken.

(** The arguments of one [AuditLogger.log_action] call. *)
Module AuditCall.
Record t := mk {
  user_id : option string;
  action : string;
  resource : option string;
  details : option dict;
  ip_address : option string;
  user_agent : option string
}.
End AuditCall.

(** [app/schemas/user.py], [TokenResponse]. *)
Module TokenResponse.
Record t := mk {
  access_token : string;
  refresh_token : option string;
  token_type : string;
  expires_in : Z
}.
End TokenResponse.

(** [app/schemas/user.py], [UserLoginRequest]. *)
Module UserLoginRequest.
Record t := mk { cedula : string; password : string }.
End UserLoginRequest.

(** [app/schemas/user.py], [UserRegisterRequest], after validation. *)
Module UserRegisterRequest.
Record t := mk {
  cedula : string;
  first_name : string;
  last_name : string;
  phone : string;
  address : string;
  password : string;
  confirm_password : string
}.
End UserRegisterRequest.

(** [app/schemas/user.py], [UserResponse]: every column but the password
    hash; the two creation timestamps are required. *)
Module UserResponse.
Record t := mk {
  id : string;
  cedula : string;
  first_name : string;
  last_name : string;
  phone : string;
  address : string;
  role : UserRole;
  status : UserStatus;
  is_verified : bool;
  profile_photo_url : option string;
  document_front_url : option string;
  document_back_url : option string;
  created_at : datetime;
  updated_at : datetime;
  last_login : option datetime
}.
End UserResponse.

(** What [validate_file_upload] reads of a FastAPI [UploadFile]. *)
Module UploadFile.
Record t := mk {
  filename : option string;
  size : option Z
}.
End UploadFile.

(** What one call reads from outside the database contents: the
    application clock ([datetime.utcnow()]), the database clock
    ([func.now()]), the value [uuid.uuid4] gives the next inserted row, and
    the randomness available to the token codec. *)
Record Env := mkEnv {
  utcnow : datetime;
  func_now : datetime;
  uuid4 : string;
  nonce : string
}.

(** ** The collaborators that are imported but not part of these modules *)

(** [app/utils/security.py]: only its call sites are in the service.  The
    functions are taken as an interface; [verify_token] returns [None] (or
    an empty payload) for a token it does not accept. *)
Module security.
Class t := mk {
  verify_password : string -> string -> bool;
  create_access_token : dict -> Z -> Env -> string;
  create_refresh_token : dict -> Env -> string;
  verify_token : string -> string -> Env -> option dict
}.
End security.

(** [app/config/settings.py]: the two values the engine reads. *)
Module settings.
Class t := mk {
  ACCESS_TOKEN_EXPIRE_MINUTES : Z;
  REFRESH_TOKEN_EXPIRE_DAYS : Z
}.
End settings.

(** Exceptions that the modelled code can raise: a unique constraint
    refused at commit ([id] is a primary key, [token] and [cedula] are
    [unique=True]), and the [LookupError] of a flush that has to write, into
    an Enum column, a value that is not a member of the column's enum. *)
Inductive Exception :=
| IntegrityError (constraint : string)
| LookupError (value : status_enum.UserStatus).

(** Python's [str(e)] on those exceptions; the text comes from the driver. *)
Class ExceptionText := str : Exception -> string.

(** [get_password_hash] of [app/utils/security.py]; the hash may be salted,
    so it reads the call's environment. *)
Class PasswordHasher := get_password_hash : string -> Env -> string.

(** Python's [uuid.UUID(s)] followed by [str]: the canonical form of a
    well-formed UUID string, [None] where the constructor raises
    [ValueError]. *)
Class UuidParser := UUID : string -> option string.

(** Python's [str(d)] on a dict. *)
Class DictText := str_dict : dict -> string.

(** The text of the pydantic error for a row that does not fit
    [UserResponse]. *)
Class ValidationText := validation_error : User.t -> string.

(** [timedelta(days=d)] in seconds. *)
Definition timedelta_days (d : Z) : Z := d * 86400.

(** ** Database state and the monad of repository calls *)

Record Db := mkDb {
  users : list User.t;
  refresh_tokens : list RefreshToken.t;
  (** every [AuditLogger.log_action] call so far, oldest first *)
  audit_calls : list AuditCall.t
}.

Definition with_users (st : Db) (us : list User.t) : Db :=
  mkDb us (refresh_tokens st) (audit_calls st).

Definition with_refresh_tokens (st : Db) (rs : list RefreshToken.t) : Db :=
  mkDb (users st) rs (audit_calls st).

Definition with_audit_calls (st : Db) (cs : list AuditCall.t) : Db :=
  mkDb (users st) (refresh_tokens st) cs.

Inductive Result (A : Type) :=
| Returned (a : A)
| Raised (e : Exception).
Arguments Returned {A} a.
Arguments Raised {A} e.

Definition M (A : Type) : Type := Db -> Result A * Db.

Definition ret {A} (a : A) : M A := fun st => (Returned a, st).

Definition bind {A B} (c : M A) (k : A -> M B) : M B :=
  fun st =>
    match c st with
    | (Returned a, st') => k a st'
    | (Raised e, st') => (Raised e, st')
    end.

Definition raise {A} (e : Exception) : M A := fun st => (Raised e, st).

Notation "x <- c ;; k" := (bind c (fun x => k))
  (at level 61, c at next level, right associativity).
Notation "c ;;; k" := (bind c (fun _ => k))
  (at level 61, right associativity).

(** [try: body except Exception as e: handler(e)] around a service body. *)
Definition try_except {A} (body : M A) (handler : Exception -> A) : Db -> A * Db :=
  fun st =>
    match body st with
    | (Returned a, st') => (a, st')
    | (Raised e, st') => (handler e, st')
    end.

(** [query.filter(p).first()] followed by an attribute assignment on the
    returned object and [commit()]: the first matching row changes in place. *)
Fixpoint update_first {A} (p : A -> bool) (f : A -> A) (l : list A) : list A :=
  match l with
  | [] => []
  | x :: rest => if p x then f x :: rest else x :: update_first p f rest
  end.

Definition UserStatus_eqb (a b : UserStatus) : bool :=
  match a, b with
  | ACTIVE, ACTIVE | INACTIVE, INACTIVE | SUSPENDED, SUSPENDED
  | PENDING_VERIFICATION, PENDING_VERIFICATION => true
  | _, _ => false
  end.

Definition option_Z_eqb (a b : option Z) : bool :=
  match a, b with
  | Some x, Some y => Z.eqb x y
  | None, None => true
  | _, _ => false
  end.

(** ** [app/repositories/user_repository.py] *)

Module UserRepository.
Section UserRepository.
Context {sec : security.t}.

Definition get_user_by_cedula (cedula : string) : M (option User.t) :=
  fun st =>
    (Returned (find (fun u => String.eqb (User.cedula u) cedula) (users st)), st).

(** [user_id] comes from [token_data.get("sub")] and may be [None]; the
    primary key is never NULL, so the query then has no row. *)
Definition get_user_by_id (user_id : option string) : M (option User.t) :=
  fun st =>
    (Returned
       match user_id with
       | Some i => find (fun u => String.eqb (User.id u) i) (users st)
       | None => None
       end, st).

Definition authenticate_user (cedula password : string) : M (option User.t) :=
  user <- get_user_by_cedula cedula ;;
  match user with
  | None => ret None
  | Some u =>
      if negb (security.verify_password password (User.password_hash u))
      then ret None
      else ret (Some u)
  end.

(** [user.last_login = user.updated_at; self.db.commit()].  The flush
    emits an UPDATE only when the attribute has a net change; that UPDATE
    also refreshes [updated_at] through its [onupdate]. *)
Definition update_last_login (env : Env) (user_id : string) : M unit :=
  user <- get_user_by_id (Some user_id) ;;
  match user with
  | Some u =>
      fun st =>
        if option_Z_eqb (User.last_login u) (User.updated_at u)
        then (Returned tt, st)
        else
          (Returned tt,
           with_users st
             (update_first
                (fun x => String.eqb (User.id x) (User.id u))
                (fun x => User.with_last_login x (User.updated_at u) (func_now env))
                (users st)))
  | None => ret tt
  end.

Context {hasher : PasswordHasher} {uuid : UuidParser}.

(** The two unique indexes of [users]: the primary key and [cedula]. *)
Definition violated_user_constraint (row : User.t) (rows : list User.t)
  : option string :=
  if existsb (fun u => String.eqb (User.id u) (User.id row)) rows
  then Some "users_pkey"
  else if existsb (fun u => String.eqb (User.cedula u) (User.cedula row)) rows
  then Some "ix_users_cedula"
  else None.

(** [user_data] is the dumped registration request without [password]:
    the hash is taken from [confirm_password], the other columns take their
    defaults. *)
Definition create_user (env : Env) (user_data : UserRegisterRequest.t) : M User.t :=
  fun st =>
    let password_hash :=
      get_password_hash (UserRegisterRequest.confirm_password user_data) env in
    let user :=
      User.mk (uuid4 env) (UserRegisterRequest.cedula user_data) password_hash
        (UserRegisterRequest.first_name user_data)
        (UserRegisterRequest.last_name user_data)
        (UserRegisterRequest.phone user_data)
        (UserRegisterRequest.address user_data)
        None None None CUSTOMER PENDING_VERIFICATION false
        (Some (func_now env)) (Some (func_now env)) None in
    match violated_user_constraint user (users st) with
    | Some c => raise (IntegrityError c) st
    | None => (Returned user, with_users st (users st ++ [user]))
    end.

(** [user.status = status; user.updated_at = user.updated_at; commit;
    refresh].  The second assignment stores the value already there, so the
    flush writes only when the status changes. *)
Definition update_user_status (env : Env) (user_id : string) (status : UserStatus)
  : M (option User.t) :=
  user <- get_user_by_id (Some user_id) ;;
  match user with
  | None => ret None
  | Some u =>
      fun st =>
        if UserStatus_eqb (User.status u) status
        then (Returned (Some u), st)
        else
          (Returned (Some (User.with_status u status (User.is_verified u) (func_now env))),
           with_users st
             (update_first
                (fun x => String.eqb (User.id x) (User.id u))
                (fun x => User.with_status x status (User.is_verified x) (func_now env))
                (users st)))
  end.

(** [user.is_verified = True; user.status = UserStatus.ACTIVE; commit].
    [UserStatus] is here the enum of [app/models/status_enum.py], not the
    enum of the column: the flush cannot write the value and raises, and
    nothing of the assignment reaches the table. *)
Definition verify_user (user_id : string) : M (option User.t) :=
  user <- get_user_by_id (Some user_id) ;;
  match user with
  | None => ret None
  | Some _ => raise (LookupError status_enum.ACTIVE)
  end.

(** [user.status = UserStatus.INACTIVE; commit], meant as a soft delete;
    the member is again the one of [app/models/status_enum.py] and the
    flush raises. *)
Definition delete_user (user_id : string) : M bool :=
  user <- get_user_by_id (Some user_id) ;;
  match user with
  | None => ret false
  | Some _ => raise (LookupError status_enum.INACTIVE)
  end.

(** [exclude_user_id] is used only when it is truthy and parses as a UUID;
    the [ValueError] of a malformed one is passed over. *)
Definition check_cedula_exists (cedula : string) (exclude_user_id : option string)
  : M bool :=
  fun st =>
    let query := filter (fun u => String.eqb (User.cedula u) cedula) (users st) in
    let query :=
      match exclude_user_id with
      | Some e =>
          if truthy_str exclude_user_id
          then match UUID e with
               | Some uuid_exclude =>
                   filter (fun u => negb (String.eqb (User.id u) uuid_exclude)) query
               | None => query
               end
          else query
      | None => query
      end in
    (Returned (match query with [] => false | _ :: _ => true end), st).
End UserRepository.
End UserRepository.

Module RefreshTokenRepository.

(** The two unique indexes of the table. *)
Definition violated_constraint (row : RefreshToken.t)
    (rows : list RefreshToken.t) : option string :=
  if existsb (fun r => String.eqb (RefreshToken.id r) (RefreshToken.id row)) rows
  then Some "refresh_tokens_pkey"
  else if existsb (fun r => String.eqb (RefreshToken.token r) (RefreshToken.token row)) rows
  then Some "ix_refresh_tokens_token"
  else None.

(** [token_data] is the dict with keys [user_id], [token], [expires_at]
    and [created_by_ip]; the other columns take their defaults. *)
Definition create_refresh_token (env : Env) (user_id token : string)
    (expires_at : datetime) (created_by_ip : option string) : M RefreshToken.t :=
  fun st =>
    let refresh_token :=
      RefreshToken.mk (uuid4 env) user_id token expires_at false
                      (Some (func_now env)) created_by_ip in
    match violated_constraint refresh_token (refresh_tokens st) with
    | Some c => raise (IntegrityError c) st
    | None =>
        (Returned refresh_token,
         with_refresh_tokens st (refresh_tokens st ++ [refresh_token]))
    end.

Definition is_active (env : Env) (token : string) (r : RefreshToken.t) : bool :=
  String.eqb (RefreshToken.token r) token
  && negb (RefreshToken.is_revoked r)
  && (func_now env <? RefreshToken.expires_at r).

Definition get_refresh_token (env : Env) (token : string) : M (option RefreshToken.t) :=
  fun st => (Returned (find (is_active env token) (refresh_tokens st)), st).

Definition revoke_refresh_token (token : string) : M bool :=
  fun st =>
    match find (fun r => String.eqb (RefreshToken.token r) token) (refresh_tokens st) with
    | Some _ =>
        (Returned true,
         with_refresh_tokens st
           (update_first
              (fun r => String.eqb (RefreshToken.token r) token)
              (fun r => RefreshToken.with_is_revoked r true)
              (refresh_tokens st)))
    | None => (Returned false, st)
    end.
End RefreshTokenRepository.

(** ** [app/utils/audit.py] *)

Module AuditLogger.
(** The whole body sits in [try ... except Exception], so the call never
    raises into the service.  Inside it [AuditRepository()] is built
    without the session its constructor requires; what the engine hands
    over is therefore recorded here as the call itself. *)
Definition log_action (user_id : option string) (action : string)
    (resource : option string) (details : option dict)
    (ip_address user_agent : option string) : M unit :=
  fun st =>
    (Returned tt,
     with_audit_calls st
       (audit_calls st ++
        [AuditCall.mk user_id action resource details ip_address user_agent])).
End AuditLogger.

(** ** [app/services/auth_service.py] *)

Module AuthService.
Section AuthService.
Context {sec : security.t} {cfg : settings.t} {txt : ExceptionText}.

Definition token_claims (user : User.t) : dict :=
  [("sub", User.id user); ("cedula", User.cedula user);
   ("role", UserRole_value (User.role user))].

Definition login_user (env : Env) (login_data : UserLoginRequest.t)
    (ip_address user_agent : option string)
  : Db -> (bool * string * option TokenResponse.t) * Db :=
  try_except
    (user <- UserRepository.authenticate_user
               (UserLoginRequest.cedula login_data)
               (UserLoginRequest.password login_data) ;;
     match user with
     | None =>
         AuditLogger.log_action None "login_failed" (Some "user")
           (Some [("cedula", UserLoginRequest.cedula login_data)])
           ip_address user_agent ;;;
         ret (false, "Cédula o contraseña incorrecta", None)
     | Some user =>
         let access_token_expires := settings.ACCESS_TOKEN_EXPIRE_MINUTES in
         let access_token :=
           security.create_access_token (token_claims user)
             access_token_expires env in
         let refresh_token :=
           security.create_refresh_token [("sub", User.id user)] env in
         RefreshTokenRepository.create_refresh_token env
           (User.id user) refresh_token
           (utcnow env + timedelta_days settings.REFRESH_TOKEN_EXPIRE_DAYS)
           ip_address ;;;
         UserRepository.update_last_login env (User.id user) ;;;
         AuditLogger.log_action (Some (User.id user)) "login" (Some "user")
           (Some [("cedula", User.cedula user)]) ip_address user_agent ;;;
         ret (true, "Login exitoso",
              Some (TokenResponse.mk access_token (Some refresh_token) "bearer"
                      (settings.ACCESS_TOKEN_EXPIRE_MINUTES * 60)))
     end)
    (fun e => (false, "Error en login: " ++ str e, None)).

Definition refresh_access_token (env : Env) (refresh_token : string)
    (ip_address : option string)
  : Db -> (bool * string * option TokenResponse.t) * Db :=
  try_except
    (let token_data := security.verify_token refresh_token "refresh" env in
     if negb (truthy_dict token_data)
     then ret (false, "Refresh token inválido o expirado", None)
     else
       stored_token <- RefreshTokenRepository.get_refresh_token env refresh_token ;;
       match stored_token with
       | None => ret (false, "Refresh token no encontrado", None)
       | Some _ =>
           user <- UserRepository.get_user_by_id
                     (match token_data with
                      | Some d => dict_get d "sub"
                      | None => None
                      end) ;;
           match user with
           | None => ret (false, "Usuario no encontrado", None)
           | Some user =>
               let access_token_expires := settings.ACCESS_TOKEN_EXPIRE_MINUTES in
               let new_access_token :=
                 security.create_access_token (token_claims user)
                   access_token_expires env in
               let new_refresh_token :=
                 security.create_refresh_token [("sub", User.id user)] env in
               RefreshTokenRepository.revoke_refresh_token refresh_token ;;;
               RefreshTokenRepository.create_refresh_token env
                 (User.id user) new_refresh_token
                 (utcnow env + timedelta_days settings.REFRESH_TOKEN_EXPIRE_DAYS)
                 ip_address ;;;
               ret (true, "Token renovado exitosamente",
                    Some (TokenResponse.mk new_access_token
                            (Some new_refresh_token) "bearer"
                            (settings.ACCESS_TOKEN_EXPIRE_MINUTES * 60)))
           end
       end)
    (fun e => (false, "Error renovando token: " ++ str e, None)).

Definition logout_user (env : Env) (access_token : string)
    (refresh_token : option string) (ip_address : option string)
  : Db -> (bool * string) * Db :=
  try_except
    (let token_data := security.verify_token access_token "access" env in
     if negb (truthy_dict token_data)
     then ret (false, "Token inválido")
     else
       let user_id :=
         match token_data with
         | Some d => dict_get d "sub"
         | None => None
         end in
       (match refresh_token with
        | Some r =>
            if truthy_str refresh_token
            then RefreshTokenRepository.revoke_refresh_token r ;;; ret tt
            else ret tt
        | None => ret tt
        end) ;;;
       AuditLogger.log_action user_id "logout" (Some "user") None ip_address None ;;;
       ret (true, "Logout exitoso"))
    (fun e => (false, "Error en logout: " ++ str e)).

Definition verify_token (env : Env) (token : string)
  : Db -> (bool * option string * option dict) * Db :=
  try_except
    (let token_data := security.verify_token token "access" env in
     if negb (truthy_dict token_data)
     then ret (false, Some "Token inválido o expirado", None)
     else
       let user_id :=
         match token_data with
         | Some d => dict_get d "sub"
         | None => None
         end in
       user <- UserRepository.get_user_by_id user_id ;;
       match user with
       | None => ret (false, Some "Usuario no encontrado", None)
       | Some _ => ret (true, Some "Token válido", token_data)
       end)
    (fun e => (false, Some ("Error verificando token: " ++ str e), None)).

Context {hasher : PasswordHasher} {uuid : UuidParser} {dtxt : DictText}.

(** [user_dict] as [create_user] leaves it: [confirm_password] popped,
    [password_hash] added.  It is the same dict object the handler prints. *)
Definition user_dict_after_create (env : Env) (user_data : UserRegisterRequest.t)
  : dict :=
  [("cedula", UserRegisterRequest.cedula user_data);
   ("first_name", UserRegisterRequest.first_name user_data);
   ("last_name", UserRegisterRequest.last_name user_data);
   ("phone", UserRegisterRequest.phone user_data);
   ("address", UserRegisterRequest.address user_data);
   ("password_hash",
    get_password_hash (UserRegisterRequest.confirm_password user_data) env)].

Definition register_user (env : Env) (user_data : UserRegisterRequest.t)
    (ip_address user_agent : option string)
  : Db -> (bool * string * option dict) * Db :=
  try_except
    (taken <- UserRepository.check_cedula_exists
                (UserRegisterRequest.cedula user_data) None ;;
     if taken
     then ret (false, "La cédula ya está registrada", None)
     else
       user <- UserRepository.create_user env user_data ;;
       AuditLogger.log_action (Some (User.id user)) "register" (Some "user")
         (Some [("cedula", User.cedula user)]) ip_address user_agent ;;;
       ret (true, "Usuario registrado exitosamente",
            Some [("user_id", User.id user)]))
    (fun e => (false,
               "Error registrando usuario: " ++ str e ++ " "
               ++ str_dict (user_dict_after_create env user_data), None)).
End AuthService.
End AuthService.

(** ** [app/services/user_service.py] *)

Definition UserStatus_value (s : UserStatus) : string :=
  match s with
  | ACTIVE => "active"
  | INACTIVE => "inactive"
  | SUSPENDED => "suspended"
  | PENDING_VERIFICATION => "pending_verification"
  end.

(** [UserResponse.from_orm(user)]: the columns are copied; a row whose
    [created_at] or [updated_at] is NULL does not validate. *)
Definition UserResponse_from_orm (u : User.t) : option UserResponse.t :=
  match User.created_at u, User.updated_at u with
  | Some c, Some m =>
      Some (UserResponse.mk (User.id u) (User.cedula u) (User.first_name u)
              (User.last_name u) (User.phone u) (User.address u) (User.role u)
              (User.status u) (User.is_verified u) (User.profile_photo_url u)
              (User.document_front_url u) (User.document_back_url u)
              c m (User.last_login u))
  | _, _ => None
  end.

Module UserService.
Section UserService.
Context {sec : security.t} {hasher : PasswordHasher} {uuid : UuidParser}
        {txt : ExceptionText} {vtxt : ValidationText}.

(** The last two statements of the methods that answer with a user:
    [from_orm] and the success tuple, or, when [from_orm] raises, the tuple
    of the [except] branch. *)
Definition respond_with_user (error_prefix success_message : string) (u : User.t)
  : bool * string * option UserResponse.t :=
  match UserResponse_from_orm u with
  | Some r => (true, success_message, Some r)
  | None => (false, error_prefix ++ validation_error u, None)
  end.

Definition get_user_full_data (user_id requesting_user_id requesting_user_role : string)
  : Db -> (bool * string * option UserResponse.t) * Db :=
  try_except
    (if negb (String.eqb user_id requesting_user_id)
        && negb (String.eqb requesting_user_role "admin")
     then ret (false, "No autorizado para ver estos datos", None)
     else
       user <- UserRepository.get_user_by_id (Some user_id) ;;
       match user with
       | None => ret (false, "Usuario no encontrado", None)
       | Some u =>
           ret (respond_with_user "Error obteniendo usuario: "
                  "Usuario obtenido exitosamente" u)
       end)
    (fun e => (false, "Error obteniendo usuario: " ++ str e, None)).

Definition verify_user (user_id admin_user_id : string)
    (ip_address : option string)
  : Db -> (bool * string * option UserResponse.t) * Db :=
  try_except
    (user <- UserRepository.get_user_by_id (Some user_id) ;;
     match user with
     | None => ret (false, "Usuario no encontrado", None)
     | Some _ =>
         verified_user <- UserRepository.verify_user user_id ;;
         match verified_user with
         | None => ret (false, "Error verificando usuario", None)
         | Some v =>
             AuditLogger.log_action (Some user_id) "user_verification" (Some "user")
               (Some [("verified_by", admin_user_id)]) ip_address None ;;;
             ret (respond_with_user "Error verificando usuario: "
                    "Usuario verificado exitosamente" v)
         end
     end)
    (fun e => (false, "Error verificando usuario: " ++ str e, None)).

Definition update_user_status (env : Env) (user_id : string) (status : UserStatus)
    (admin_user_id : string) (ip_address : option string)
  : Db -> (bool * string * option UserResponse.t) * Db :=
  try_except
    (user <- UserRepository.get_user_by_id (Some user_id) ;;
     match user with
     | None => ret (false, "Usuario no encontrado", None)
     | Some _ =>
         updated_user <- UserRepository.update_user_status env user_id status ;;
         match updated_user with
         | None => ret (false, "Error actualizando estado", None)
         | Some v =>
             AuditLogger.log_action (Some user_id) "status_update" (Some "user")
               (Some [("new_status", UserStatus_value status);
                      ("updated_by", admin_user_id)]) ip_address None ;;;
             ret (respond_with_user "Error actualizando estado: "
                    "Estado actualizado exitosamente" v)
         end
     end)
    (fun e => (false, "Error actualizando estado: " ++ str e, None)).

Definition delete_user (user_id admin_user_id : string)
    (ip_address : option string) : Db -> (bool * string) * Db :=
  try_except
    (user <- UserRepository.get_user_by_id (Some user_id) ;;
     match user with
     | None => ret (false, "Usuario no encontrado")
     | Some _ =>
         success <- UserRepository.delete_user user_id ;;
         if negb success
         then ret (false, "Error eliminando usuario")
         else
           AuditLogger.log_action (Some user_id) "user_deletion" (Some "user")
             (Some [("deleted_by", admin_user_id)]) ip_address None ;;;
           ret (true, "Usuario eliminado exitosamente")
     end)
    (fun e => (false, "Error eliminando usuario: " ++ str e)).
End UserService.
End UserService.

(** ** [app/services/file_service.py] *)

(** [str.lower] on the ASCII letters; the other bytes are kept. *)
Definition ascii_lower (c : Ascii.ascii) : Ascii.ascii :=
  let n := Ascii.nat_of_ascii c in
  if (Nat.leb 65 n && Nat.leb n 90)%bool
  then Ascii.ascii_of_nat (n + 32)
  else c.

Fixpoint lower (s : string) : string :=
  match s with
  | EmptyString => EmptyString
  | String c rest => String (ascii_lower c) (lower rest)
  end.

(** [s.split(sep)] for a one-character separator: the pieces between the
    separators, at least one piece. *)
Fixpoint split (sep : Ascii.ascii) (s : string) : list string :=
  match s with
  | EmptyString => [EmptyString]
  | String c rest =>
      if Ascii.eqb c sep
      then EmptyString :: split sep rest
      else match split sep rest with
           | piece :: pieces => String c piece :: pieces
           | [] => [String c EmptyString]
           end
  end.

Module FileService.

Definition allowed_extensions : list string := [".jpg"; ".jpeg"; ".png"; ".webp"].

Definition validate_file_upload (file : UploadFile.t) : bool * string :=
  if negb (truthy_str (UploadFile.filename file))
  then (false, "Nombre de archivo requerido")
  else
    let filename :=
      match UploadFile.filename file with
      | Some s => s
      | None => EmptyString
      end in
    if match UploadFile.size file with
       | Some n => negb (n =? 0) && (5 * 1024 * 1024 <? n)
       | None => false
       end
    then (false, "Archivo demasiado grande (máximo 5MB)")
    else
      let file_extension := last (split "."%char (lower filename)) EmptyString in
      if negb (existsb (String.eqb ("." ++ file_extension)) allowed_extensions)
      then (false,
            "Tipo de archivo no permitido. Extensiones permitidas: "
            ++ String.concat ", " allowed_extensions)
      else (true, "Archivo válido").
End FileService.

(** ** The four engine operations as one transition function *)

Inductive Request :=
| Login (login_data : UserLoginRequest.t) (ip_address user_agent : option string)
| Refresh (refresh_token : string) (ip_address : option string)
| Logout (access_token : string) (refresh_token : option string)
         (ip_address : option string)
| Verify (token : string).

Inductive Response :=
| TokenOutcome (r : bool * string * option TokenResponse.t)
| LogoutOutcome (r : bool * string)
| VerifyOutcome (r : bool * option string * option dict).

Section Engine.
Context {sec : security.t} {cfg : settings.t} {txt : ExceptionText}.

Definition handle (env : Env) (req : Request) (st : Db) : Response * Db :=
  match req with
  | Login login_data ip_address user_agent =>
      let (r, st') := AuthService.login_user env login_data ip_address user_agent st in
      (TokenOutcome r, st')
  | Refresh refresh_token ip_address =>
      let (r, st') := AuthService.refresh_access_token env refresh_token ip_address st in
      (TokenOutcome r, st')
  | Logout access_token refresh_token ip_address =>
      let (r, st') := AuthService.logout_user env access_token refresh_token ip_address st in
      (LogoutOutcome r, st')
  | Verify token =>
      let (r, st') := AuthService.verify_token env token st in
      (VerifyOutcome r, st')
  end.

(** A sequence of calls, each with what it reads from its environment. *)
Fixpoint run (calls : list (Env * Request)) (st : Db) : Db :=
  match calls with
  | [] => st
  | (env, req) :: rest => run rest (snd (handle env req st))
  end.

(** *** Refresh, one store access at a time

    [refresh_access_token] touches the database four times
    ([get_refresh_token], [get_user_by_id], [revoke_refresh_token],
    [create_refresh_token]); each access commits on its own and nothing
    locks the row in between.  A call in progress is at one of these
    points. *)
Inductive RefreshPoint :=
| AtLookup
| AtGetUser (token_data : option dict)
| AtRevoke (user : User.t)
| AtCreate (user : User.t) (new_access_token new_refresh_token : string)
| Finished (result : bool * string * option TokenResponse.t).

Definition refresh_step (env : Env) (refresh_token : string)
    (ip_address : option string) (pt : RefreshPoint) (st : Db)
  : RefreshPoint * Db :=
  match pt with
  | AtLookup =>
      let token_data := security.verify_token refresh_token "refresh" env in
      if negb (truthy_dict token_data)
      then (Finished (false, "Refresh token inválido o expirado", None), st)
      else
        match RefreshTokenRepository.get_refresh_token env refresh_token st with
        | (Returned None, st') =>
            (Finished (false, "Refresh token no encontrado", None), st')
        | (Returned (Some _), st') => (AtGetUser token_data, st')
        | (Raised e, st') =>
            (Finished (false, "Error renovando token: " ++ str e, None), st')
        end
  | AtGetUser token_data =>
      match UserRepository.get_user_by_id
              (match token_data with
               | Some d => dict_get d "sub"
               | None => None
               end) st with
      | (Returned None, st') =>
          (Finished (false, "Usuario no encontrado", None), st')
      | (Returned (Some user), st') => (AtRevoke user, st')
      | (Raised e, st') =>
          (Finished (false, "Error renovando token: " ++ str e, None), st')
      end
  | AtRevoke user =>
      let access_token_expires := settings.ACCESS_TOKEN_EXPIRE_MINUTES in
      let new_access_token :=
        security.create_access_token (AuthService.token_claims user)
          access_token_expires env in
      let new_refresh_token :=
        security.create_refresh_token [("sub", User.id user)] env in
      match RefreshTokenRepository.revoke_refresh_token refresh_token st with
      | (Returned _, st') => (AtCreate user new_access_token new_refresh_token, st')
      | (Raised e, st') =>
          (Finished (false, "Error renovando token: " ++ str e, None), st')
      end
  | AtCreate user new_access_token new_refresh_token =>
      match RefreshTokenRepository.create_refresh_token env
              (User.id user) new_refresh_token
              (utcnow env + timedelta_days settings.REFRESH_TOKEN_EXPIRE_DAYS)
              ip_address st with
      | (Returned _, st') =>
          (Finished (true, "Token renovado exitosamente",
                     Some (TokenResponse.mk new_access_token
                             (Some new_refresh_token) "bearer"
                             (settings.ACCESS_TOKEN_EXPIRE_MINUTES * 60))), st')
      | (Raised e, st') =>
          (Finished (false, "Error renovando token: " ++ str e, None), st')
      end
  | Finished r => (Finished r, st)
  end.

(** Two refresh calls in flight over the same database. *)
Inductive Caller := First | Second.

Record InFlight := mkInFlight {
  first_at : RefreshPoint;
  second_at : RefreshPoint;
  shared : Db
}.

Definition interleave_step (env1 env2 : Env) (t1 t2 : string)
    (ip1 ip2 : option string) (who : Caller) (c : InFlight) : InFlight :=
  match who with
  | First =>
      let (pt, st) := refresh_step env1 t1 ip1 (first_at c) (shared c) in
      mkInFlight pt (second_at c) st
  | Second =>
      let (pt, st) := refresh_step env2 t2 ip2 (second_at c) (shared c) in
      mkInFlight (first_at c) pt st
  end.

Fixpoint interleave (env1 env2 : Env) (t1 t2 : string)
    (ip1 ip2 : option string) (schedule : list Caller) (c : InFlight) : InFlight :=
  match schedule with
  | [] => c
  | who :: rest =>
      interleave env1 env2 t1 t2 ip1 ip2 rest
        (interleave_step env1 env2 t1 t2 ip1 ip2 who c)
  end.

(** Both calls from their start, under a schedule. *)
Definition both_from_start (env1 env2 : Env) (t1 t2 : string)
    (ip1 ip2 : option string) (schedule : list Caller) (st : Db) : InFlight :=
  interleave env1 env2 t1 t2 ip1 ip2 schedule (mkInFlight AtLookup AtLookup st).



End Engine.

(** ** Store predicates used by the statements *)

(** The strings the store takes as a text value.  PostgreSQL refuses one
    that holds the NUL character, and a query that compares a column with
    such a string raises instead of answering; the queries above are
    written for the strings it accepts.  Every stored string is one. *)
Definition storable_text (s : string) : Prop :=
  ~ In Ascii.zero (list_ascii_of_string s).



(** The unique index on [refresh_tokens.token]. *)
Definition unique_tokens (st : Db) : Prop :=
  NoDup (map RefreshToken.token (refresh_tokens st)).

(** How one row may differ between two moments: every column but
    [is_revoked] is the same, and [is_revoked] does not go back to false. *)
Definition row_evolves (r r' : RefreshToken.t) : Prop :=
  r' = r \/ r' = RefreshToken.with_is_revoked r true.

(** Every old row is still there, at its place, possibly revoked since;
    new rows come after. *)
Definition store_evolves (rows rows' : list RefreshToken.t) : Prop :=
  exists kept added, rows' = (kept ++ added)%list /\ Forall2 row_evolves rows kept.

(** The token string has a row and no row for it is unrevoked. *)
Definition spent (token : string) (st : Db) : Prop :=
  (exists r, In r (refresh_tokens st) /\ RefreshToken.token r = token) /\
  (forall r, In r (refresh_tokens st) -> RefreshToken.token r = token ->
             RefreshToken.is_revoked r = true).

(** The rows a lookup of [token] can return at database time [func_now]. *)
Definition usable_row (env : Env) (token : string) (r : RefreshToken.t) : Prop :=
  RefreshToken.token r = token /\ RefreshToken.is_revoked r = false /\
  func_now env < RefreshToken.expires_at r.

(** The subject claim of a decoded token, [token_data.get("sub")]. *)
Definition subject (token_data : option dict) : option string :=
  match token_data with
  | Some d => dict_get d "sub"
  | None => None
  end.

(** The rows after [revoke_refresh_token token] found a row. *)
Definition mark_revoked (token : string) (rows : list RefreshToken.t)
  : list RefreshToken.t :=
  update_first (fun r => String.eqb (RefreshToken.token r) token)
               (fun r => RefreshToken.with_is_revoked r true) rows.

(** The user a subject claim resolves to, as [get_user_by_id] computes it. *)
Definition user_of_subject (sub : option string) (st : Db) : option User.t :=
  match sub with
  | Some i => find (fun u => String.eqb (User.id u) i) (users st)
  | None => None
  end.

Section Minted.
Context {sec : security.t} {cfg : settings.t}.

(** The row that login and refresh hand to [create_refresh_token]. *)
Definition minted_row (env : Env) (user : User.t) (ip_address : option string)
  : RefreshToken.t :=
  RefreshToken.mk (uuid4 env) (User.id user)
    (security.create_refresh_token [("sub", User.id user)] env)
    (utcnow env + timedelta_days settings.REFRESH_TOKEN_EXPIRE_DAYS)
    false (Some (func_now env)) ip_address.

(** The payload of a successful login or refresh. *)
Definition minted_pair (env : Env) (user : User.t) : TokenResponse.t :=
  TokenResponse.mk
    (security.create_access_token (AuthService.token_claims user)
       settings.ACCESS_TOKEN_EXPIRE_MINUTES env)
    (Some (security.create_refresh_token [("sub", User.id user)] env))
    "bearer" (settings.ACCESS_TOKEN_EXPIRE_MINUTES * 60).
End Minted.

(** The audit calls of login and logout. *)
Definition login_failed_call (login_data : UserLoginRequest.t)
    (ip_address user_agent : option string) : AuditCall.t :=
  AuditCall.mk None "login_failed" (Some "user")
    (Some [("cedula", UserLoginRequest.cedula login_data)]) ip_address user_agent.

Definition login_call (user : User.t) (ip_address user_agent : option string)
  : AuditCall.t :=
  AuditCall.mk (Some (User.id user)) "login" (Some "user")
    (Some [("cedula", User.cedula user)]) ip_address user_agent.

Definition logout_call (user_id : option string) (ip_address : option string)
  : AuditCall.t :=
  AuditCall.mk user_id "logout" (Some "user") None ip_address None.

Definition emit (c : AuditCall.t) (st : Db) : Db :=
  with_audit_calls st (audit_calls st ++ [c]).

(** The table after the revocation step of logout. *)
Definition logout_rows (refresh_token : option string)
    (rows : list RefreshToken.t) : list RefreshToken.t :=
  match refresh_token with
  | Some r => if truthy_str refresh_token then mark_revoked r rows else rows
  | None => rows
  end.

(** What one engine call can do to the [refresh_tokens] table. *)
Inductive store_step (rows : list RefreshToken.t) : list RefreshToken.t -> Prop :=
| step_none : store_step rows rows
| step_revoke token : store_step rows (mark_revoked token rows)
| step_insert row :
    RefreshTokenRepository.violated_constraint row rows = None ->
    RefreshToken.is_revoked row = false ->
    store_step rows (rows ++ [row])
| step_revoke_insert token row :
    RefreshTokenRepository.violated_constraint row (mark_revoked token rows) = None ->
    RefreshToken.is_revoked row = false ->
    store_step rows (mark_revoked token rows ++ [row]).

(** The primary key and the unique index of [users]. *)
Definition unique_user_ids (st : Db) : Prop :=
  NoDup (map User.id (users st)).

Definition unique_cedulas (st : Db) : Prop :=
  NoDup (map User.cedula (users st)).

(** A user row without the two timestamps that a login may write. *)
Definition without_login_stamps (u : User.t) : User.t :=
  User.mk (User.id u) (User.cedula u) (User.password_hash u) (User.first_name u)
    (User.last_name u) (User.phone u) (User.address u) (User.profile_photo_url u)
    (User.document_front_url u) (User.document_back_url u) (User.role u)
    (User.status u) (User.is_verified u) (User.created_at u) None None.

(** What login, refresh and verify read of a user row. *)
Definition credentials (u : User.t) : string * string * string * UserRole :=
  (User.id u, User.cedula u, User.password_hash u, User.role u).

(** Neither the id nor the token string of [row] is in the table yet. *)
Definition fresh_row (row : RefreshToken.t) (rows : list RefreshToken.t) : Prop :=
  ~ In (RefreshToken.id row) (map RefreshToken.id rows) /\
  ~ In (RefreshToken.token row) (map RefreshToken.token rows).

Section Registered.
Context {hasher : PasswordHasher}.

(** The row [create_user] builds for a registration request. *)
Definition registered_user (env : Env) (user_data : UserRegisterRequest.t) : User.t :=
  User.mk (uuid4 env) (UserRegisterRequest.cedula user_data)
    (get_password_hash (UserRegisterRequest.confirm_password user_data) env)
    (UserRegisterRequest.first_name user_data)
    (UserRegisterRequest.last_name user_data)
    (UserRegisterRequest.phone user_data)
    (UserRegisterRequest.address user_data)
    None None None CUSTOMER PENDING_VERIFICATION false
    (Some (func_now env)) (Some (func_now env)) None.
End Registered.

(** ** A concrete instance for worked examples *)

Module demo.

(** The tokens the example codec has signed: string, kind, subject and
    embedded expiry. *)
Definition signed : list (string * (string * string * Z)) :=
  [("rt-1", ("refresh", "u1", 604800));
   ("rt-2", ("refresh", "u1", 604810));
   ("rt-3", ("refresh", "u1", 604811));
   ("rt-9", ("refresh", "u2", 604800));
   ("rt-old", ("refresh", "u1", 5));
   ("rt-rev", ("refresh", "u1", 604800));
   ("at-1", ("access", "u1", 1800))].

Fixpoint lookup_signed (tok : string) (l : list (string * (string * string * Z)))
  : option (string * string * Z) :=
  match l with
  | [] => None
  | (s, v) :: rest => if String.eqb s tok then Some v else lookup_signed tok rest
  end.

(** Modelled from the spec: [verify_token] of [app/utils/security.py],
    which is not under src/.  The spec has the codec embed the kind and an
    absolute expiry, and reject a token it did not sign, one of the wrong
    kind, and one whose expiry has passed. *)
Definition verify_token (tok kind : string) (env : Env) : option dict :=
  match lookup_signed tok signed with
  | Some (k, sub, exp) =>
      if String.eqb k kind && (utcnow env <=? exp)
      then Some [("sub", sub); ("type", k)]
      else None
  | None => None
  end.

(** Modelled from the spec: an instance of [app/utils/security.py], which
    is not under src/.  A password [p] is stored as ["hash:" ++ p]; a new
    token is named after the nonce of the call that mints it. *)
Definition sec : security.t :=
  security.mk
    (fun password hash => String.eqb hash ("hash:" ++ password))
    (fun _ _ env => "at-" ++ nonce env)
    (fun _ env => "rt-" ++ nonce env)
    verify_token.

Definition cfg : settings.t := settings.mk 30 7.

Definition txt : ExceptionText :=
  fun e =>
    match e with
    | IntegrityError c => "unique constraint " ++ c
    | LookupError _ => "value is not among the defined enum values"
    end.

Definition u1 : User.t :=
  User.mk "u1" "12345678" "hash:secret-one" "Ana" "Rojas" "3001234567"
    "Calle 1 # 2-3, Bogota" None None None CUSTOMER ACTIVE true
    (Some 50) (Some 100) None.

Definition u2 : User.t :=
  User.mk "u2" "87654321" "hash:secret-two" "Luis" "Mora" "3007654321"
    "Carrera 4 # 5-6, Cali" None None None AGENT ACTIVE true
    (Some 60) (Some 60) None.

Definition row (id user_id token : string) (expires_at : Z) (revoked : bool)
  : RefreshToken.t :=
  RefreshToken.mk id user_id token expires_at revoked (Some 0) None.

Definition db : Db :=
  mkDb [u1; u2]
       [row "id-1" "u1" "rt-1" 604800 false;
        row "id-9" "u2" "rt-9" 604800 false;
        row "id-r" "u1" "rt-rev" 604800 true]
       [].

(** A call at time [now] whose new row gets id ["id-" ++ n] and whose
    new tokens are named after [n]. *)
Definition at_time (now : Z) (n : string) : Env :=
  mkEnv now now ("id-" ++ n) n.

Definition login := @AuthService.login_user sec cfg txt.
Definition refresh := @AuthService.refresh_access_token sec cfg txt.
Definition logout := @AuthService.logout_user sec txt.
Definition verify := @AuthService.verify_token sec txt.
Definition both_from_start := @both_from_start sec cfg txt.

(** Modelled from the spec: [get_password_hash] of [app/utils/security.py],
    which is not under src/, matching the [verify_password] of [sec]. *)
Definition hasher : PasswordHasher := fun password _ => "hash:" ++ password.

(** In the examples the well-formed ids are the strings that start with
    ["u"], already in canonical form. *)
Definition uuid : UuidParser :=
  fun s => match s with
           | String "u" _ => Some s
           | _ => None
           end.

Definition dtxt : DictText :=
  fun d => String.concat ", " (map (fun kv => fst kv ++ "=" ++ snd kv) d).

Definition vtxt : ValidationText := fun _ => "created_at: input should be a valid datetime".

Definition register :=
  AuthService.register_user (txt:=txt) (hasher:=hasher) (uuid:=uuid) (dtxt:=dtxt).
Definition delete_user := UserService.delete_user (txt:=txt).
Definition get_user_full_data :=
  UserService.get_user_full_data (txt:=txt) (vtxt:=vtxt).
Definition update_user_status :=
  UserService.update_user_status (txt:=txt) (vtxt:=vtxt).

Definition carla : UserRegisterRequest.t :=
  UserRegisterRequest.mk "11223344" "Carla" "Diaz" "3009998877"
    "Avenida 7 # 8-9, Medellin" "secret-three" "secret-three".
End demo.

(** * Properties *)

(** ** Lists and rows *)

Lemma update_first_length {A} (p : A -> bool) (f : A -> A) (l : list A) :
  length (update_first p f l) = length l.
Proof.
  induction l as [|x l IH]; simpl; [reflexivity|].
  destruct (p x); simpl; congruence.
Qed.

Lemma update_first_no_match {A} (p : A -> bool) (f : A -> A) (l : list A) :
  find p l = None -> update_first p f l = l.
Proof.
  induction l as [|x l IH]; simpl; [reflexivity|].
  destruct (p x); [discriminate|]. intros H. now rewrite IH.
Qed.

Lemma update_first_pointwise {A} (p : A -> bool) (f : A -> A) (l : list A) :
  Forall2 (fun x y => y = x \/ y = f x) l (update_first p f l).
Proof.
  induction l as [|x l IH]; simpl; [constructor|].
  destruct (p x).
  - constructor; [now right|].
    clear IH. induction l; constructor; auto.
  - constructor; [now left|exact IH].
Qed.

Lemma update_first_keeps_others {A} (p : A -> bool) (f : A -> A) (l : list A) :
  forall i x, nth_error l i = Some x -> p x = false ->
              nth_error (update_first p f l) i = Some x.
Proof.
  induction l as [|y l IH]; intros [|i] x; simpl; try discriminate.
  - intros [= ->] Hp. now rewrite Hp.
  - intros Hx Hp. destruct (p y); simpl; auto.
Qed.

Lemma update_first_one_place {A} (p : A -> bool) (f : A -> A) (l : list A) :
  exists i, forall j, j <> i ->
    nth_error (update_first p f l) j = nth_error l j.
Proof.
  induction l as [|x l [i IH]]; simpl.
  - exists 0%nat. reflexivity.
  - destruct (p x).
    + exists 0%nat. intros [|j] Hj; [congruence|reflexivity].
    + exists (S i). intros [|j] Hj; simpl; [reflexivity|].
      apply IH. congruence.
Qed.

Lemma mark_revoked_tokens token rows :
  map RefreshToken.token (mark_revoked token rows) = map RefreshToken.token rows.
Proof.
  unfold mark_revoked.
  induction rows as [|r rows IH]; simpl; [reflexivity|].
  destruct (String.eqb (RefreshToken.token r) token); simpl; congruence.
Qed.

Lemma mark_revoked_evolves token rows :
  Forall2 row_evolves rows (mark_revoked token rows).
Proof. apply update_first_pointwise. Qed.

(** A row that is in the table after a revocation was there before, either
    as it is or unrevoked. *)
Lemma mark_revoked_origin token rows r' :
  In r' (mark_revoked token rows) ->
  exists r, In r rows /\ row_evolves r r'.
Proof.
  intros Hin.
  pose proof (mark_revoked_evolves token rows) as HF.
  induction HF as [|r0 r0' l l' Hr _ IH]; simpl in Hin; [contradiction|].
  destruct Hin as [<-|Hin].
  - exists r0. split; [now left|exact Hr].
  - destruct (IH Hin) as (r & ? & ?). exists r. split; [now right|assumption].
Qed.

(** With one row per token string, revoking a token leaves no unrevoked
    row for it. *)
Lemma mark_revoked_all token rows :
  NoDup (map RefreshToken.token rows) ->
  forall r, In r (mark_revoked token rows) -> RefreshToken.token r = token ->
            RefreshToken.is_revoked r = true.
Proof.
  unfold mark_revoked.
  induction rows as [|x rows IH]; simpl; intros Hnd r Hin Htok; [contradiction|].
  inversion Hnd as [|? ? Hnotin Hnd']; subst.
  destruct (String.eqb (RefreshToken.token x) (RefreshToken.token r)) eqn:E.
  - apply String.eqb_eq in E. destruct Hin as [<-|Hin]; [reflexivity|].
    exfalso. apply Hnotin. rewrite E. now apply in_map.
  - destruct Hin as [<-|Hin].
    + rewrite String.eqb_refl in E. discriminate.
    + now apply IH.
Qed.

Lemma mark_revoked_stays_revoked token rows t :
  (forall r, In r rows -> RefreshToken.token r = t -> RefreshToken.is_revoked r = true) ->
  forall r, In r (mark_revoked token rows) -> RefreshToken.token r = t ->
            RefreshToken.is_revoked r = true.
Proof.
  intros H r' Hin Htok.
  destruct (mark_revoked_origin _ _ _ Hin) as (r & Hr & [->| ->]).
  - now apply H.
  - reflexivity.
Qed.

Lemma has_token_iff token rows :
  (exists r, In r rows /\ RefreshToken.token r = token) <->
  In token (map RefreshToken.token rows).
Proof.
  rewrite in_map_iff. split; intros (r & ? & ?); exists r; tauto.
Qed.

Lemma find_token_none token rows :
  find (fun r => String.eqb (RefreshToken.token r) token) rows = None <->
  ~ In token (map RefreshToken.token rows).
Proof.
  split.
  - intros H Hin. apply in_map_iff in Hin as (r & Htok & Hin).
    pose proof (find_none _ _ H r Hin) as E. simpl in E.
    rewrite Htok, String.eqb_refl in E. discriminate.
  - intros H. destruct (find _ rows) eqn:F; [|reflexivity].
    apply find_some in F as [Hin E]. apply String.eqb_eq in E.
    exfalso. apply H. rewrite <- E. now apply in_map.
Qed.

Lemma is_active_usable env token r :
  RefreshTokenRepository.is_active env token r = true <-> usable_row env token r.
Proof.
  unfold RefreshTokenRepository.is_active, usable_row.
  rewrite !andb_true_iff, negb_true_iff, String.eqb_eq, Z.ltb_lt. tauto.
Qed.

(** [get_refresh_token] finds nothing exactly when the table holds no row
    for the string that is unrevoked and expires after the database's
    current time. *)
Lemma lookup_none_iff env token rows :
  find (RefreshTokenRepository.is_active env token) rows = None <->
  (forall r, In r rows -> ~ usable_row env token r).
Proof.
  split.
  - intros H r Hin Hu. apply is_active_usable in Hu.
    pose proof (find_none _ _ H r Hin). congruence.
  - intros H. destruct (find _ rows) eqn:F; [|reflexivity].
    apply find_some in F as [Hin E]. apply is_active_usable in E.
    exfalso. exact (H _ Hin E).
Qed.

Lemma spent_lookup_none env token st :
  spent token st ->
  find (RefreshTokenRepository.is_active env token) (refresh_tokens st) = None.
Proof.
  intros [_ H]. apply lookup_none_iff. intros r Hin (Htok & Hrev & _).
  rewrite (H r Hin Htok) in Hrev. discriminate.
Qed.

(** ** What each repository and service call does to the state *)

Section Services.
Context {sec : security.t} {cfg : settings.t} {txt : ExceptionText}.

Lemma with_refresh_tokens_same st : with_refresh_tokens st (refresh_tokens st) = st.
Proof. now destruct st. Qed.

Lemma revoke_state token st :
  snd (RefreshTokenRepository.revoke_refresh_token token st)
  = with_refresh_tokens st (mark_revoked token (refresh_tokens st)).
Proof.
  unfold RefreshTokenRepository.revoke_refresh_token, mark_revoked.
  destruct (find _ (refresh_tokens st)) eqn:F; simpl; [reflexivity|].
  rewrite update_first_no_match by exact F.
  now rewrite with_refresh_tokens_same.
Qed.

Lemma revoke_never_raises token st :
  exists b, fst (RefreshTokenRepository.revoke_refresh_token token st) = Returned b.
Proof.
  unfold RefreshTokenRepository.revoke_refresh_token.
  destruct (find _ (refresh_tokens st)); simpl; eauto.
Qed.

(** [refresh_access_token] as one decision tree over the codec's verdict
    and the tables. *)
Lemma refresh_unfold env t ip st :
  AuthService.refresh_access_token env t ip st =
  let td := security.verify_token t "refresh" env in
  let rows := refresh_tokens st in
  if truthy_dict td then
    match find (RefreshTokenRepository.is_active env t) rows with
    | None => ((false, "Refresh token no encontrado", None), st)
    | Some _ =>
        match user_of_subject (subject td) st with
        | None => ((false, "Usuario no encontrado", None), st)
        | Some user =>
            match RefreshTokenRepository.violated_constraint
                    (minted_row env user ip) (mark_revoked t rows) with
            | Some c =>
                ((false, "Error renovando token: " ++ str (IntegrityError c), None),
                 with_refresh_tokens st (mark_revoked t rows))
            | None =>
                ((true, "Token renovado exitosamente", Some (minted_pair env user)),
                 with_refresh_tokens st
                   (mark_revoked t rows ++ [minted_row env user ip]))
            end
        end
    end
  else ((false, "Refresh token inválido o expirado", None), st).
Proof.
  cbv zeta.
  unfold AuthService.refresh_access_token, try_except.
  destruct (truthy_dict (security.verify_token t "refresh" env)); simpl;
    [|reflexivity].
  unfold bind, RefreshTokenRepository.get_refresh_token,
    UserRepository.get_user_by_id, ret.
  destruct (find (RefreshTokenRepository.is_active env t) (refresh_tokens st));
    [|reflexivity].
  change (match security.verify_token t "refresh" env with
          | Some d => dict_get d "sub"
          | None => None
          end) with (subject (security.verify_token t "refresh" env)).
  change (match subject (security.verify_token t "refresh" env) with
          | Some i => find (fun u => String.eqb (User.id u) i) (users st)
          | None => None
          end)
    with (user_of_subject (subject (security.verify_token t "refresh" env)) st).
  destruct (user_of_subject _ st) as [user|]; [|reflexivity].
  pose proof (revoke_state t st) as Hst.
  destruct (revoke_never_raises t st) as [b Hb].
  destruct (RefreshTokenRepository.revoke_refresh_token t st) as [res st1].
  simpl in Hst, Hb. subst res st1.
  unfold RefreshTokenRepository.create_refresh_token.
  change (RefreshToken.mk (uuid4 env) (User.id user)
            (security.create_refresh_token [("sub", User.id user)] env)
            (utcnow env + timedelta_days settings.REFRESH_TOKEN_EXPIRE_DAYS)
            false (Some (func_now env)) ip)
    with (minted_row env user ip).
  simpl refresh_tokens.
  destruct (RefreshTokenRepository.violated_constraint _ _); reflexivity.
Qed.

Lemma update_last_login_keeps env user_id st :
  let st' := snd (UserRepository.update_last_login env user_id st) in
  refresh_tokens st' = refresh_tokens st /\ audit_calls st' = audit_calls st /\
  fst (UserRepository.update_last_login env user_id st) = Returned tt.
Proof.
  unfold UserRepository.update_last_login, bind, UserRepository.get_user_by_id, ret.
  destruct (find _ (users st)) as [u|]; simpl; [|auto].
  destruct (option_Z_eqb _ _); simpl; auto.
Qed.

Lemma login_unfold env d ip ua st :
  AuthService.login_user env d ip ua st =
  match find (fun u => String.eqb (User.cedula u) (UserLoginRequest.cedula d))
             (users st) with
  | None =>
      ((false, "Cédula o contraseña incorrecta", None),
       emit (login_failed_call d ip ua) st)
  | Some u =>
      if security.verify_password (UserLoginRequest.password d) (User.password_hash u)
      then
        match RefreshTokenRepository.violated_constraint
                (minted_row env u ip) (refresh_tokens st) with
        | Some c =>
            ((false, "Error en login: " ++ str (IntegrityError c), None), st)
        | None =>
            ((true, "Login exitoso", Some (minted_pair env u)),
             emit (login_call u ip ua)
               (snd (UserRepository.update_last_login env (User.id u)
                       (with_refresh_tokens st
                          (refresh_tokens st ++ [minted_row env u ip])))))
        end
      else
        ((false, "Cédula o contraseña incorrecta", None),
         emit (login_failed_call d ip ua) st)
  end.
Proof.
  unfold AuthService.login_user, try_except, UserRepository.authenticate_user.
  unfold bind at 1. unfold bind at 1.
  unfold UserRepository.get_user_by_cedula at 1.
  destruct (find _ (users st)) as [u|]; [|reflexivity].
  destruct (security.verify_password _ _); simpl; [|reflexivity].
  unfold bind at 1. unfold RefreshTokenRepository.create_refresh_token.
  change (RefreshToken.mk (uuid4 env) (User.id u)
            (security.create_refresh_token [("sub", User.id u)] env)
            (utcnow env + timedelta_days settings.REFRESH_TOKEN_EXPIRE_DAYS)
            false (Some (func_now env)) ip)
    with (minted_row env u ip).
  destruct (RefreshTokenRepository.violated_constraint _ _); [reflexivity|].
  unfold bind at 1.
  destruct (update_last_login_keeps env (User.id u)
              (with_refresh_tokens st (refresh_tokens st ++ [minted_row env u ip])))
    as (_ & _ & Hr).
  destruct (UserRepository.update_last_login env (User.id u) _) as [res st2].
  simpl in Hr. subst res. reflexivity.
Qed.

Lemma logout_unfold env access r ip st :
  AuthService.logout_user env access r ip st =
  let td := security.verify_token access "access" env in
  if truthy_dict td
  then ((true, "Logout exitoso"),
        emit (logout_call (subject td) ip)
          (with_refresh_tokens st (logout_rows r (refresh_tokens st))))
  else ((false, "Token inválido"), st).
Proof.
  cbv zeta. unfold AuthService.logout_user, try_except, logout_rows.
  destruct (truthy_dict _); simpl; [|reflexivity].
  destruct r as [r|]; simpl.
  - destruct r as [|c r]; simpl.
    + now rewrite with_refresh_tokens_same.
    + unfold bind at 1. unfold bind at 1.
      pose proof (revoke_state (String c r) st) as Hst.
      destruct (revoke_never_raises (String c r) st) as [b Hb].
      destruct (RefreshTokenRepository.revoke_refresh_token _ st) as [res st1].
      simpl in Hst, Hb. subst res st1. reflexivity.
  - now rewrite with_refresh_tokens_same.
Qed.

Lemma verify_unfold env token st :
  AuthService.verify_token env token st =
  let td := security.verify_token token "access" env in
  if truthy_dict td
  then match user_of_subject (subject td) st with
       | None => ((false, Some "Usuario no encontrado", None), st)
       | Some _ => ((true, Some "Token válido", td), st)
       end
  else ((false, Some "Token inválido o expirado", None), st).
Proof.
  cbv zeta. unfold AuthService.verify_token, try_except.
  destruct (truthy_dict _); simpl; [|reflexivity].
  unfold bind, UserRepository.get_user_by_id, user_of_subject, subject.
  destruct (match security.verify_token token "access" env with
            | Some d => dict_get d "sub" | None => None end); [|reflexivity].
  destruct (find _ (users st)); reflexivity.
Qed.
End Services.

(** ** The table across engine calls *)

Lemma no_violation_fresh_token row rows :
  RefreshTokenRepository.violated_constraint row rows = None ->
  ~ In (RefreshToken.token row) (map RefreshToken.token rows).
Proof.
  unfold RefreshTokenRepository.violated_constraint.
  destruct (existsb (fun r => String.eqb (RefreshToken.id r) _) rows); [discriminate|].
  destruct (existsb (fun r => String.eqb (RefreshToken.token r) _) rows) eqn:E;
    [discriminate|].
  intros _ Hin. apply in_map_iff in Hin as (r & Htok & Hin).
  assert (existsb (fun r => String.eqb (RefreshToken.token r) (RefreshToken.token row))
            rows = true) as C.
  { apply existsb_exists. exists r. split; [assumption|]. now apply String.eqb_eq. }
  congruence.
Qed.

Lemma store_step_evolves rows rows' :
  store_step rows rows' -> store_evolves rows rows'.
Proof.
  assert (Hrefl : forall l, Forall2 row_evolves l l).
  { induction l; constructor; [now left|assumption]. }
  intros [|token|row _ _|token row _ _].
  - exists rows, []. rewrite app_nil_r. auto.
  - exists (mark_revoked token rows), []. rewrite app_nil_r.
    split; [reflexivity|apply mark_revoked_evolves].
  - exists rows, [row]. auto.
  - exists (mark_revoked token rows), [row].
    split; [reflexivity|apply mark_revoked_evolves].
Qed.

Lemma store_step_unique rows rows' :
  store_step rows rows' ->
  NoDup (map RefreshToken.token rows) -> NoDup (map RefreshToken.token rows').
Proof.
  assert (Hsnoc : forall l row,
             NoDup (map RefreshToken.token l) ->
             ~ In (RefreshToken.token row) (map RefreshToken.token l) ->
             NoDup (map RefreshToken.token (l ++ [row]))).
  { intros l row Hnd Hfresh. rewrite map_app. simpl.
    apply NoDup_app; [assumption|repeat constructor; simpl; tauto|].
    intros x Hx [<-|[]]. contradiction. }
  intros [|token|row Hc _|token row Hc _] Hnd.
  - assumption.
  - now rewrite mark_revoked_tokens.
  - apply Hsnoc; [assumption|now apply no_violation_fresh_token].
  - apply Hsnoc; [now rewrite mark_revoked_tokens|now apply no_violation_fresh_token].
Qed.

(** Once a token string is spent it stays spent: no call unrevokes its row,
    and the unique index refuses a second row for it. *)
Lemma store_step_spent token st st' :
  store_step (refresh_tokens st) (refresh_tokens st') ->
  spent token st -> spent token st'.
Proof.
  unfold spent. rewrite !has_token_iff.
  generalize (refresh_tokens st) (refresh_tokens st'). clear st st'.
  intros rows rows' Hstep [Hex Hall].
  assert (Hsnoc : forall l row,
    In token (map RefreshToken.token l) ->
    (forall r, In r l -> RefreshToken.token r = token -> RefreshToken.is_revoked r = true) ->
    ~ In (RefreshToken.token row) (map RefreshToken.token l) ->
    In token (map RefreshToken.token (l ++ [row])) /\
    (forall r, In r (l ++ [row]) -> RefreshToken.token r = token ->
               RefreshToken.is_revoked r = true)).
  { intros l row Hin Hrev Hfresh. split.
    - rewrite map_app. apply in_or_app. now left.
    - intros r Hr Htok. apply in_app_or in Hr as [Hr|[<-|[]]]; [now apply Hrev|].
      exfalso. apply Hfresh. now rewrite Htok. }
  destruct Hstep as [|tk|row Hc _|tk row Hc _].
  - auto.
  - split; [now rewrite mark_revoked_tokens|].
    now apply mark_revoked_stays_revoked.
  - apply Hsnoc; auto. now apply no_violation_fresh_token.
  - apply Hsnoc.
    + now rewrite mark_revoked_tokens.
    + now apply mark_revoked_stays_revoked.
    + now apply no_violation_fresh_token.
Qed.

Section Transitions.
Context {sec : security.t} {cfg : settings.t} {txt : ExceptionText}.

Lemma refresh_store_step env t ip st :
  store_step (refresh_tokens st)
    (refresh_tokens (snd (AuthService.refresh_access_token env t ip st))).
Proof.
  rewrite refresh_unfold. cbv zeta.
  destruct (truthy_dict _); [|constructor].
  destruct (find _ _); [|constructor].
  destruct (user_of_subject _ _) as [user|]; [|constructor].
  destruct (RefreshTokenRepository.violated_constraint _ _) eqn:Hc; simpl.
  - constructor.
  - now constructor.
Qed.

Lemma login_store_step env d ip ua st :
  store_step (refresh_tokens st)
    (refresh_tokens (snd (AuthService.login_user env d ip ua st))).
Proof.
  rewrite login_unfold.
  destruct (find _ _) as [u|]; [|constructor].
  destruct (security.verify_password _ _); [|constructor].
  destruct (RefreshTokenRepository.violated_constraint _ _) eqn:Hc; [constructor|].
  simpl.
  destruct (update_last_login_keeps env (User.id u)
              (with_refresh_tokens st (refresh_tokens st ++ [minted_row env u ip])))
    as (-> & _ & _).
  simpl. now constructor.
Qed.

Lemma logout_store_step env access r ip st :
  store_step (refresh_tokens st)
    (refresh_tokens (snd (AuthService.logout_user env access r ip st))).
Proof.
  rewrite logout_unfold. cbv zeta.
  destruct (truthy_dict _); [|constructor]. simpl.
  unfold logout_rows. destruct r as [r|]; [|constructor].
  destruct (truthy_str _); constructor.
Qed.

Lemma verify_store_same env token st :
  snd (AuthService.verify_token env token st) = st.
Proof.
  rewrite verify_unfold. cbv zeta.
  destruct (truthy_dict _); [|reflexivity].
  destruct (user_of_subject _ _); reflexivity.
Qed.

Lemma handle_store_step env req st :
  store_step (refresh_tokens st) (refresh_tokens (snd (handle env req st))).
Proof.
  destruct req as [d ip ua|t ip|access r ip|token]; simpl.
  - pose proof (login_store_step env d ip ua st).
    now destruct (AuthService.login_user env d ip ua st).
  - pose proof (refresh_store_step env t ip st).
    now destruct (AuthService.refresh_access_token env t ip st).
  - pose proof (logout_store_step env access r ip st).
    now destruct (AuthService.logout_user env access r ip st).
  - pose proof (verify_store_same env token st) as H.
    destruct (AuthService.verify_token env token st). simpl in *. subst.
    constructor.
Qed.

Lemma run_spent token calls : forall st, spent token st -> spent token (run calls st).
Proof.
  induction calls as [|[env req] calls IH]; intros st H; simpl; [assumption|].
  apply IH. eapply store_step_spent; [apply handle_store_step|assumption].
Qed.

(** The unique index holds in every state the engine reaches. *)
Lemma handle_unique env req st :
  unique_tokens st -> unique_tokens (snd (handle env req st)).
Proof. apply store_step_unique, handle_store_step. Qed.

Lemma run_unique calls : forall st, unique_tokens st -> unique_tokens (run calls st).
Proof.
  induction calls as [|[env req] calls IH]; intros st H; simpl; [assumption|].
  now apply IH, handle_unique.
Qed.
End Transitions.

(** ** Refresh: the order of the checks *)

Section RefreshChecks.
Context {sec : security.t} {cfg : settings.t} {txt : ExceptionText}.

(** C2: refresh first asks the codec and answers "Refresh token inválido
    o expirado" (TokenInvalid) when it rejects; only then looks the string
    up in the store and answers "Refresh token no encontrado"
    (TokenNotFound) when no row for it is unrevoked with an expiry after
    the database's current time, although the codec accepted the token;
    only then resolves the subject and answers "Usuario no encontrado"
    (UserNotFound) when no user has that id.  In all three cases the state
    is left exactly as it was. *)
Theorem refresh_failures_in_order env t ip st :
  let td := security.verify_token t "refresh" env in
  (truthy_dict td = false ->
   AuthService.refresh_access_token env t ip st
   = ((false, "Refresh token inválido o expirado", None), st))
  /\
  (truthy_dict td = true ->
   (forall r, In r (refresh_tokens st) -> ~ usable_row env t r) ->
   AuthService.refresh_access_token env t ip st
   = ((false, "Refresh token no encontrado", None), st))
  /\
  (truthy_dict td = true ->
   (exists r, In r (refresh_tokens st) /\ usable_row env t r) ->
   (forall u, In u (users st) -> Some (User.id u) <> subject td) ->
   AuthService.refresh_access_token env t ip st
   = ((false, "Usuario no encontrado", None), st)).
Proof.
  intros td. rewrite refresh_unfold. cbv zeta. fold td.
  split; [|split].
  - intros ->. reflexivity.
  - intros -> Hnone. apply lookup_none_iff in Hnone. now rewrite Hnone.
  - intros -> (r & Hin & Hu) Hnouser.
    destruct (find (RefreshTokenRepository.is_active env t) (refresh_tokens st)) eqn:F.
    2:{ exfalso. rewrite lookup_none_iff in F. exact (F r Hin Hu). }
    destruct (user_of_subject (subject td) st) as [u|] eqn:U; [|reflexivity].
    exfalso. unfold user_of_subject in U.
    destruct (subject td) as [i|]; [|discriminate].
    apply find_some in U as [Hu_in E]. apply String.eqb_eq in E.
    apply (Hnouser u Hu_in). now rewrite E.
Qed.
End RefreshChecks.

(** A refresh with a token the codec rejects, one for a token with no row,
    and one for a stored token whose subject has no user record. *)
Lemma refresh_failures_in_order_witness :
  demo.refresh (demo.at_time 10 "2") "rt-old" None demo.db
  = ((false, "Refresh token inválido o expirado", None), demo.db)
  /\ demo.refresh (demo.at_time 10 "2") "rt-2" None demo.db
     = ((false, "Refresh token no encontrado", None), demo.db)
  /\ demo.refresh (demo.at_time 10 "2") "rt-1" None (with_users demo.db [demo.u2])
     = ((false, "Usuario no encontrado", None), with_users demo.db [demo.u2]).
Proof.
  split; [|split].
  - apply (proj1 (@refresh_failures_in_order demo.sec demo.cfg demo.txt
                    (demo.at_time 10 "2") "rt-old" None demo.db)).
    reflexivity.
  - apply (proj1 (proj2 (@refresh_failures_in_order demo.sec demo.cfg demo.txt
                           (demo.at_time 10 "2") "rt-2" None demo.db))).
    + reflexivity.
    + intros r Hin (Htok & _).
      simpl in Hin. destruct Hin as [<-|[<-|[<-|[]]]]; discriminate.
  - apply (proj2 (proj2 (@refresh_failures_in_order demo.sec demo.cfg demo.txt
                           (demo.at_time 10 "2") "rt-1" None
                           (with_users demo.db [demo.u2])))).
    + reflexivity.
    + exists (demo.row "id-1" "u1" "rt-1" 604800 false).
      split; [simpl; auto|]. repeat split.
    + intros u Hin. simpl in Hin. destruct Hin as [<-|[]]. discriminate.
Defined.

(** ** Rows are kept and revocation is one-way *)

Section StoreInvariant.
Context {sec : security.t} {cfg : settings.t} {txt : ExceptionText}.

(** C6: whatever the call (login, refresh, logout or verify), every row of
    [refresh_tokens] is still in the table afterwards, at its place and with
    the same columns, except that [is_revoked] may have gone from false to
    true; a revoked row stays revoked, and new rows are only appended. *)
Theorem rows_kept_and_revocation_one_way env req st :
  store_evolves (refresh_tokens st) (refresh_tokens (snd (handle env req st))).
Proof. apply store_step_evolves, handle_store_step. Qed.

(** The same, row by row and over any sequence of calls. *)
Lemma run_keeps_rows calls : forall st i r,
  nth_error (refresh_tokens st) i = Some r ->
  exists r', nth_error (refresh_tokens (run calls st)) i = Some r' /\
             RefreshToken.with_is_revoked r' true = RefreshToken.with_is_revoked r true /\
             (RefreshToken.is_revoked r = true -> RefreshToken.is_revoked r' = true).
Proof.
  induction calls as [|[env req] calls IH]; intros st i r Hr; simpl.
  - exists r. auto.
  - destruct (store_step_evolves _ _ (handle_store_step env req st))
      as (kept & added & E & HF).
    assert (exists r1, nth_error kept i = Some r1 /\ row_evolves r r1) as (r1 & H1 & Hev).
    { clear E. revert i Hr. induction HF as [|x y l l' Hxy _ IHF]; intros [|i] Hr;
        simpl in *; try discriminate.
      - injection Hr as <-. eauto.
      - now apply IHF. }
    assert (nth_error (refresh_tokens (snd (handle env req st))) i = Some r1) as H2.
    { rewrite E. rewrite nth_error_app1; [assumption|].
      apply nth_error_Some. congruence. }
    destruct (IH _ _ _ H2) as (r' & Hr' & Hsame & Hmono).
    exists r'. split; [assumption|].
    destruct Hev as [->| ->]; simpl in *; auto.
Qed.
End StoreInvariant.

(** ** Logout *)

Lemma find_update_first_blind {A} (p q : A -> bool) (f : A -> A) (l : list A) :
  (forall x, p x = true -> q x = false /\ q (f x) = false) ->
  find q (update_first p f l) = find q l.
Proof.
  intros H. induction l as [|x l IH]; simpl; [reflexivity|].
  destruct (p x) eqn:P; simpl.
  - destruct (H x P) as [-> ->]. reflexivity.
  - now rewrite IH.
Qed.

Lemma mark_revoked_first token rows row :
  NoDup (map RefreshToken.token rows) ->
  In row rows -> RefreshToken.token row = token ->
  In (RefreshToken.with_is_revoked row true) (mark_revoked token rows).
Proof.
  unfold mark_revoked.
  induction rows as [|x rows IH]; simpl; intros Hnd Hin Htok; [contradiction|].
  inversion Hnd as [|? ? Hnotin Hnd']; subst.
  destruct (String.eqb (RefreshToken.token x) (RefreshToken.token row)) eqn:E.
  - destruct Hin as [->|Hin]; [now left|].
    apply String.eqb_eq in E. exfalso. apply Hnotin. rewrite E. now apply in_map.
  - destruct Hin as [->|Hin].
    + rewrite String.eqb_refl in E. discriminate.
    + right. now apply IH.
Qed.

Section Logout.
Context {sec : security.t} {txt : ExceptionText}.

(** C7: a logout that supplies the refresh token string [r] changes at most
    one row of [refresh_tokens], and only a row whose token string is [r]:
    the table keeps its length, all places but one hold what they held,
    every row for another string is untouched, and so the lookup of any
    other token string gives what it gave before. *)
Theorem logout_touches_only_its_token env access r ip st :
  let rows := refresh_tokens st in
  let rows' := refresh_tokens (snd (AuthService.logout_user env access (Some r) ip st)) in
  length rows' = length rows /\
  (exists i, forall j, j <> i -> nth_error rows' j = nth_error rows j) /\
  (forall i row, nth_error rows i = Some row -> RefreshToken.token row <> r ->
                 nth_error rows' i = Some row) /\
  (forall env' t, t <> r ->
     find (RefreshTokenRepository.is_active env' t) rows'
     = find (RefreshTokenRepository.is_active env' t) rows).
Proof.
  cbv zeta. rewrite logout_unfold. cbv zeta.
  destruct (truthy_dict _); simpl.
  2:{ repeat split; auto. exists 0%nat. auto. }
  destruct r as [|c r]; simpl.
  { repeat split; auto. exists 0%nat. auto. }
  unfold mark_revoked. repeat split.
  - apply update_first_length.
  - apply update_first_one_place.
  - intros i row Hrow Hne. apply update_first_keeps_others; [assumption|].
    now apply String.eqb_neq.
  - intros env' t Hne. apply find_update_first_blind.
    intros x Hx. apply String.eqb_eq in Hx.
    unfold RefreshTokenRepository.is_active. simpl.
    assert (String.eqb (RefreshToken.token x) t = false) as ->; [|auto].
    apply String.eqb_neq. congruence.
Qed.

(** C9: when the access token validates, logout revokes the row of the
    supplied refresh token string even though that row belongs to another
    user than the access token's subject: the owner is not compared. *)
Theorem logout_revokes_row_of_another_user env access r ip st row :
  truthy_dict (security.verify_token access "access" env) = true ->
  truthy_str (Some r) = true ->
  unique_tokens st ->
  In row (refresh_tokens st) ->
  RefreshToken.token row = r ->
  Some (RefreshToken.user_id row)
    <> subject (security.verify_token access "access" env) ->
  let res := AuthService.logout_user env access (Some r) ip st in
  fst res = (true, "Logout exitoso") /\
  In (RefreshToken.with_is_revoked row true) (refresh_tokens (snd res)) /\
  (forall env', find (RefreshTokenRepository.is_active env' r)
                     (refresh_tokens (snd res)) = None).
Proof.
  intros Hok Hr Hnd Hin Htok _. cbv zeta. rewrite logout_unfold. cbv zeta.
  rewrite Hok. unfold logout_rows. rewrite Hr. simpl.
  split; [reflexivity|]. split.
  - now apply mark_revoked_first.
  - intros env'. apply lookup_none_iff. intros x Hx (Hxt & Hxr & _).
    rewrite (mark_revoked_all r _ Hnd x Hx Hxt) in Hxr. discriminate.
Qed.
End Logout.

(** Ana (u1) logs out with her own refresh token: the row of Luis (u2), at
    place 1, is what it was. *)
Lemma logout_touches_only_its_token_witness :
  nth_error (refresh_tokens
               (snd (demo.logout (demo.at_time 200 "x") "at-1" (Some "rt-1") None demo.db))) 1
  = Some (demo.row "id-9" "u2" "rt-9" 604800 false).
Proof.
  apply (proj1 (proj2 (proj2 (@logout_touches_only_its_token demo.sec demo.txt
           (demo.at_time 200 "x") "at-1" "rt-1" None demo.db)))).
  - reflexivity.
  - discriminate.
Defined.

(** Ana (u1) logs out with her access token and the refresh token of Luis
    (u2): his row is revoked. *)
Lemma logout_revokes_row_of_another_user_witness :
  fst (demo.logout (demo.at_time 200 "x") "at-1" (Some "rt-9") None demo.db)
  = (true, "Logout exitoso") /\
  In (demo.row "id-9" "u2" "rt-9" 604800 true)
     (refresh_tokens
        (snd (demo.logout (demo.at_time 200 "x") "at-1" (Some "rt-9") None demo.db))).
Proof.
  pose proof (@logout_revokes_row_of_another_user demo.sec demo.txt
                (demo.at_time 200 "x") "at-1" "rt-9" None demo.db
                (demo.row "id-9" "u2" "rt-9" 604800 false)) as H.
  cbv zeta in H.
  assert (unique_tokens demo.db) as Hu.
  { unfold unique_tokens. simpl.
    repeat constructor; simpl; intuition discriminate. }
  destruct H as (H1 & H2 & _); try reflexivity; try assumption.
  - simpl. auto.
  - discriminate.
  - split; assumption.
Defined.

(** ** Login *)

Section Login.
Context {sec : security.t} {cfg : settings.t} {txt : ExceptionText}.


End Login.


(** ** What a failure message tells *)

Section FailureMessages.
Context {sec : security.t} {cfg : settings.t} {txt : ExceptionText}.

(** C5, as the code has it: the outcome of a failing refresh depends only on
    the check that stopped it.  Any two refresh calls the codec rejects
    (expired, malformed, never signed) both get "Refresh token inválido o
    expirado"; any two the codec accepts but the store has no usable row for
    (never stored, revoked, or past the stored expiry) both get "Refresh
    token no encontrado"; any two verify calls the codec rejects both get
    "Token inválido o expirado". *)
Theorem failure_outcome_fixed_per_check env1 t1 ip1 st1 env2 t2 ip2 st2 :
  (truthy_dict (security.verify_token t1 "refresh" env1) = false ->
   truthy_dict (security.verify_token t2 "refresh" env2) = false ->
   fst (AuthService.refresh_access_token env1 t1 ip1 st1)
     = (false, "Refresh token inválido o expirado", None) /\
   fst (AuthService.refresh_access_token env2 t2 ip2 st2)
     = (false, "Refresh token inválido o expirado", None))
  /\
  (truthy_dict (security.verify_token t1 "refresh" env1) = true ->
   truthy_dict (security.verify_token t2 "refresh" env2) = true ->
   (forall r, In r (refresh_tokens st1) -> ~ usable_row env1 t1 r) ->
   (forall r, In r (refresh_tokens st2) -> ~ usable_row env2 t2 r) ->
   fst (AuthService.refresh_access_token env1 t1 ip1 st1)
     = (false, "Refresh token no encontrado", None) /\
   fst (AuthService.refresh_access_token env2 t2 ip2 st2)
     = (false, "Refresh token no encontrado", None))
  /\
  (truthy_dict (security.verify_token t1 "access" env1) = false ->
   truthy_dict (security.verify_token t2 "access" env2) = false ->
   fst (AuthService.verify_token env1 t1 st1)
     = (false, Some "Token inválido o expirado", None) /\
   fst (AuthService.verify_token env2 t2 st2)
     = (false, Some "Token inválido o expirado", None)).
Proof.
  split; [|split].
  - intros H1 H2. rewrite !refresh_unfold. cbv zeta. now rewrite H1, H2.
  - intros H1 H2 N1 N2. rewrite !refresh_unfold. cbv zeta. rewrite H1, H2.
    apply lookup_none_iff in N1, N2. now rewrite N1, N2.
  - intros H1 H2. rewrite !verify_unfold. cbv zeta. now rewrite H1, H2.
Qed.
End FailureMessages.

(** A token past its embedded expiry and a malformed one; a revoked row
    and a string with no row; two access tokens the codec rejects. *)
Lemma failure_outcome_fixed_per_check_witness :
  (fst (demo.refresh (demo.at_time 10 "2") "rt-old" None demo.db)
   = fst (demo.refresh (demo.at_time 10 "2") "garbage" None demo.db)) /\
  (fst (demo.refresh (demo.at_time 10 "2") "rt-rev" None demo.db)
   = fst (demo.refresh (demo.at_time 10 "2") "rt-2" None demo.db)) /\
  (fst (demo.verify (demo.at_time 2000 "2") "at-1" demo.db)
   = fst (demo.verify (demo.at_time 10 "2") "garbage" demo.db)).
Proof.
  assert (Hrows : forall t, t = "rt-rev" \/ t = "rt-2" ->
            forall r, In r (refresh_tokens demo.db) ->
                      ~ usable_row (demo.at_time 10 "2") t r).
  { intros t Ht r Hin (Htok & Hrev & _). simpl in Hin.
    destruct Hin as [<-|[<-|[<-|[]]]]; destruct Ht as [-> | ->]; discriminate. }
  split; [|split].
  - destruct (proj1 (@failure_outcome_fixed_per_check demo.sec demo.cfg demo.txt
                       (demo.at_time 10 "2") "rt-old" None demo.db
                       (demo.at_time 10 "2") "garbage" None demo.db))
      as [H1 H2]; [reflexivity|reflexivity|].
    exact (eq_trans H1 (eq_sym H2)).
  - destruct (proj1 (proj2 (@failure_outcome_fixed_per_check demo.sec demo.cfg demo.txt
                       (demo.at_time 10 "2") "rt-rev" None demo.db
                       (demo.at_time 10 "2") "rt-2" None demo.db)))
      as [H1 H2]; [reflexivity|reflexivity|apply Hrows; auto|apply Hrows; auto|].
    exact (eq_trans H1 (eq_sym H2)).
  - destruct (proj2 (proj2 (@failure_outcome_fixed_per_check demo.sec demo.cfg demo.txt
                       (demo.at_time 2000 "2") "at-1" None demo.db
                       (demo.at_time 10 "2") "garbage" None demo.db)))
      as [H1 H2]; [reflexivity|reflexivity|].
    exact (eq_trans H1 (eq_sym H2)).
Defined.

(** C5, as stated, fails: at the same moment a refresh with a token past its
    embedded expiry, one with a string that was never issued, and one with
    a revoked token do not all get the same message: the revoked token is
    answered differently from the other two, so the caller can tell it
    apart. *)
Lemma refresh_message_separates_expired_from_revoked :
  fst (demo.refresh (demo.at_time 10 "2") "rt-old" None demo.db)
  = (false, "Refresh token inválido o expirado", None) /\
  fst (demo.refresh (demo.at_time 10 "2") "never-issued" None demo.db)
  = (false, "Refresh token inválido o expirado", None) /\
  fst (demo.refresh (demo.at_time 10 "2") "rt-rev" None demo.db)
  = (false, "Refresh token no encontrado", None) /\
  fst (demo.refresh (demo.at_time 10 "2") "rt-old" None demo.db)
  <> fst (demo.refresh (demo.at_time 10 "2") "rt-rev" None demo.db) /\
  fst (demo.refresh (demo.at_time 10 "2") "never-issued" None demo.db)
  <> fst (demo.refresh (demo.at_time 10 "2") "rt-rev" None demo.db).
Proof. repeat split; discriminate. Qed.

(** ** Revocation *)

(** C3, as the code has it: for a token string with a row, both the first
    and the second [revoke_refresh_token] return True (the method reports
    that a row exists, not that the flag changed), and after either call
    [get_refresh_token] finds nothing for that string. *)
Theorem revoke_twice_true_both_times token st :
  unique_tokens st ->
  (exists r, In r (refresh_tokens st) /\ RefreshToken.token r = token) ->
  let call1 := RefreshTokenRepository.revoke_refresh_token token st in
  let call2 := RefreshTokenRepository.revoke_refresh_token token (snd call1) in
  fst call1 = Returned true /\
  fst call2 = Returned true /\
  (forall env, fst (RefreshTokenRepository.get_refresh_token env token (snd call1))
               = Returned None) /\
  (forall env, fst (RefreshTokenRepository.get_refresh_token env token (snd call2))
               = Returned None).
Proof.
  intros Hnd Hex. cbv zeta.
  assert (Hret : forall s,
            In token (map RefreshToken.token (refresh_tokens s)) ->
            fst (RefreshTokenRepository.revoke_refresh_token token s) = Returned true).
  { intros s Hin. unfold RefreshTokenRepository.revoke_refresh_token.
    destruct (find _ (refresh_tokens s)) eqn:F; [reflexivity|].
    apply find_token_none in F. contradiction. }
  assert (Hnone : forall s env,
            (forall r, In r (refresh_tokens s) -> RefreshToken.token r = token ->
                       RefreshToken.is_revoked r = true) ->
            fst (RefreshTokenRepository.get_refresh_token env token s) = Returned None).
  { intros s env Hall. unfold RefreshTokenRepository.get_refresh_token. simpl.
    f_equal. apply lookup_none_iff. intros r Hin (Htok & Hrev & _).
    rewrite (Hall r Hin Htok) in Hrev. discriminate. }
  apply has_token_iff in Hex.
  rewrite !revoke_state.
  repeat split.
  - now apply Hret.
  - apply Hret. simpl. now rewrite mark_revoked_tokens.
  - intros env. apply Hnone. simpl. now apply mark_revoked_all.
  - intros env. apply Hnone. simpl.
    apply mark_revoked_stays_revoked. now apply mark_revoked_all.
Qed.

Lemma revoke_twice_true_both_times_witness :
  fst (RefreshTokenRepository.revoke_refresh_token "rt-1"
         (snd (RefreshTokenRepository.revoke_refresh_token "rt-1" demo.db)))
  = Returned true.
Proof.
  apply (revoke_twice_true_both_times "rt-1" demo.db).
  - unfold unique_tokens. simpl.
    repeat constructor; simpl; intuition discriminate.
  - exists (demo.row "id-1" "u1" "rt-1" 604800 false). simpl. auto.
Defined.

(** C3, as stated, fails: the second revocation of a stored token string
    returns True, not False. *)
Lemma second_revoke_returns_true :
  fst (RefreshTokenRepository.revoke_refresh_token "rt-1" demo.db) = Returned true /\
  fst (RefreshTokenRepository.revoke_refresh_token "rt-1"
         (snd (RefreshTokenRepository.revoke_refresh_token "rt-1" demo.db)))
  <> Returned false.
Proof. split; [reflexivity|discriminate]. Qed.

(** ** Rotation makes a refresh token single-use *)

Section SingleUse.
Context {sec : security.t} {cfg : settings.t} {txt : ExceptionText}.

Lemma refresh_success_spends env t ip st msg payload st' :
  unique_tokens st ->
  AuthService.refresh_access_token env t ip st = ((true, msg, payload), st') ->
  spent t st'.
Proof.
  intros Hnd. rewrite refresh_unfold. cbv zeta.
  destruct (truthy_dict _); [|discriminate].
  destruct (find _ (refresh_tokens st)) as [row|] eqn:F; [|discriminate].
  destruct (user_of_subject _ st) as [user|]; [|discriminate].
  destruct (RefreshTokenRepository.violated_constraint _ _) eqn:Hc; [discriminate|].
  intros [= _ _ <-].
  apply find_some in F as [Hin Hact]. apply is_active_usable in Hact as (Htok & _).
  assert (In t (map RefreshToken.token (mark_revoked t (refresh_tokens st)))) as Ht.
  { rewrite mark_revoked_tokens, <- Htok. now apply in_map. }
  unfold spent. simpl. rewrite has_token_iff. split.
  - rewrite map_app. apply in_or_app. now left.
  - intros r Hr Hrt. apply in_app_or in Hr as [Hr|[<-|[]]].
    + now apply (mark_revoked_all t (refresh_tokens st)).
    + exfalso. apply (no_violation_fresh_token _ _ Hc). now rewrite Hrt.
Qed.

Lemma refresh_of_spent env t ip st :
  spent t st ->
  AuthService.refresh_access_token env t ip st
  = (if truthy_dict (security.verify_token t "refresh" env)
     then (false, "Refresh token no encontrado", None)
     else (false, "Refresh token inválido o expirado", None), st).
Proof.
  intros Hs. rewrite refresh_unfold. cbv zeta.
  destruct (truthy_dict _); [|reflexivity].
  now rewrite (spent_lookup_none env t st Hs).
Qed.

(** C1, as the code has it: once refresh(t) has succeeded, no later
    refresh(t) succeeds, whatever calls were made in between.  The store
    lookup finds nothing for [t] from then on; the later call gets "Refresh
    token no encontrado" when the codec still accepts [t], and "Refresh
    token inválido o expirado" when the codec rejects it first (for
    instance past its embedded expiry).  The state is left as it was. *)
Theorem rotated_token_never_refreshes_again env0 t ip0 st0 msg payload st1 :
  unique_tokens st0 ->
  AuthService.refresh_access_token env0 t ip0 st0 = ((true, msg, payload), st1) ->
  forall calls env ip,
    let st2 := run calls st1 in
    find (RefreshTokenRepository.is_active env t) (refresh_tokens st2) = None /\
    AuthService.refresh_access_token env t ip st2
    = (if truthy_dict (security.verify_token t "refresh" env)
       then (false, "Refresh token no encontrado", None)
       else (false, "Refresh token inválido o expirado", None), st2).
Proof.
  intros Hnd Hok calls env ip st2.
  assert (spent t st2) as Hs.
  { apply run_spent. eapply refresh_success_spends; eassumption. }
  split; [now apply spent_lookup_none|now apply refresh_of_spent].
Qed.

(** *** Two refresh calls with the same token *)

Lemma refresh_step_finished env t ip r st n :
  Nat.iter n (fun c => refresh_step env t ip (fst c) (snd c)) (Finished r, st)
  = (Finished r, st).
Proof. induction n; simpl; [reflexivity|]. now rewrite IHn. Qed.

End SingleUse.

Section TwoCalls.
Context {sec : security.t} {cfg : settings.t} {txt : ExceptionText}.
Variables (env1 env2 : Env) (t1 t2 : string) (ip1 ip2 : option string).




End TwoCalls.

Section SerialRefresh.
Context {sec : security.t} {cfg : settings.t} {txt : ExceptionText}.









End SerialRefresh.

(** ** Worked runs of rotation *)

Lemma demo_db_unique : unique_tokens demo.db.
Proof.
  unfold unique_tokens. simpl.
  repeat constructor; simpl; intuition discriminate.
Qed.

(** Ana rotates "rt-1" at time 10; Luis fails a login at time 15; a replay of
    "rt-1" at time 20 finds no row. *)
Lemma rotated_token_never_refreshes_again_witness :
  let st1 := snd (demo.refresh (demo.at_time 10 "2") "rt-1" None demo.db) in
  let st2 := @run demo.sec demo.cfg demo.txt
               [(demo.at_time 15 "5",
                 Login (UserLoginRequest.mk "87654321" "guess") None None)] st1 in
  demo.refresh (demo.at_time 20 "3") "rt-1" None st2
  = ((false, "Refresh token no encontrado", None), st2).
Proof.
  cbv zeta.
  exact (proj2 (@rotated_token_never_refreshes_again demo.sec demo.cfg demo.txt
                  (demo.at_time 10 "2") "rt-1" None demo.db
                  "Token renovado exitosamente"
                  (Some (TokenResponse.mk "at-2" (Some "rt-2") "bearer" 1800))
                  (snd (demo.refresh (demo.at_time 10 "2") "rt-1" None demo.db))
                  demo_db_unique eq_refl
                  [(demo.at_time 15 "5",
                    Login (UserLoginRequest.mk "87654321" "guess") None None)]
                  (demo.at_time 20 "3") None)).
Defined.

(** C1, as stated, fails: "rt-1" is rotated at time 10 and replayed at time
    700000, past its embedded expiry; the codec rejects it before the store
    is asked, and the answer is "Refresh token inválido o expirado", not
    "Refresh token no encontrado". *)
Lemma rotated_token_replayed_after_expiry :
  let first := demo.refresh (demo.at_time 10 "2") "rt-1" None demo.db in
  let later := demo.refresh (demo.at_time 700000 "3") "rt-1" None (snd first) in
  fst first = (true, "Token renovado exitosamente",
               Some (TokenResponse.mk "at-2" (Some "rt-2") "bearer" 1800)) /\
  fst later = (false, "Refresh token inválido o expirado", None) /\
  fst later <> (false, "Refresh token no encontrado", None).
Proof. cbv zeta. repeat split. discriminate. Qed.



(** ** Login and the last-login column *)

Lemma option_Z_eqb_eq a b : option_Z_eqb a b = true -> a = b.
Proof.
  destruct a, b; simpl; try discriminate; [|reflexivity].
  intros H. apply Z.eqb_eq in H. now subst.
Qed.

Lemma find_update_first_same {A} (p : A -> bool) (f : A -> A) (l : list A) x :
  (forall y, p (f y) = p y) ->
  find p l = Some x -> find p (update_first p f l) = Some (f x).
Proof.
  intros Hf. induction l as [|y l IH]; simpl; [discriminate|].
  destruct (p y) eqn:P; simpl.
  - intros [= ->]. now rewrite Hf, P.
  - rewrite P. exact IH.
Qed.

(** What [update_last_login] writes: the user's [updated_at] as it was
    before the call. *)
Lemma update_last_login_writes_updated_at env i st u :
  find (fun x => String.eqb (User.id x) i) (users st) = Some u ->
  exists u',
    find (fun x => String.eqb (User.id x) i)
         (users (snd (UserRepository.update_last_login env i st))) = Some u' /\
    User.last_login u' = User.updated_at u.
Proof.
  intros F. unfold UserRepository.update_last_login, bind, UserRepository.get_user_by_id.
  rewrite F.
  destruct (option_Z_eqb (User.last_login u) (User.updated_at u)) eqn:E; simpl.
  - exists u. split; [assumption|now apply option_Z_eqb_eq].
  - pose proof F as F'. apply find_some in F' as [_ Hid]. apply String.eqb_eq in Hid.
    subst i.
    exists (User.with_last_login u (User.updated_at u) (func_now env)).
    split; [|reflexivity].
    apply (find_update_first_same
             (fun x => String.eqb (User.id x) (User.id u))
             (fun x => User.with_last_login x (User.updated_at u) (func_now env)));
      [reflexivity|assumption].
Qed.

Section LastLogin.
Context {sec : security.t} {cfg : settings.t} {txt : ExceptionText}.

(** On every successful login the row that [update_last_login] resolves for
    the authenticated user ends with [last_login] equal to the [updated_at]
    it had before the login. *)
Lemma successful_login_last_login env d ip ua st msg payload st' :
  AuthService.login_user env d ip ua st = ((true, msg, payload), st') ->
  exists u,
    find (fun x => String.eqb (User.cedula x) (UserLoginRequest.cedula d)) (users st)
    = Some u /\
    forall v,
      find (fun x => String.eqb (User.id x) (User.id u)) (users st) = Some v ->
      exists v',
        find (fun x => String.eqb (User.id x) (User.id u)) (users st') = Some v' /\
        User.last_login v' = User.updated_at v.
Proof.
  rewrite login_unfold.
  destruct (find _ (users st)) as [u|] eqn:F; [|discriminate].
  destruct (security.verify_password _ _); [|discriminate].
  destruct (RefreshTokenRepository.violated_constraint _ _); [discriminate|].
  intros [= _ _ <-]. exists u. split; [reflexivity|]. intros v Hv.
  apply (update_last_login_writes_updated_at env (User.id u)
           (with_refresh_tokens st (refresh_tokens st ++ [minted_row env u ip])) v Hv).
Qed.
End LastLogin.

(** C8 fails on the code: Ana, whose row was last updated at time 100, logs
    in at time 200.  The login succeeds; her [last_login] becomes 100, the
    previous [updated_at], and it is [updated_at] that receives 200. *)
Theorem login_writes_previous_update_time :
  let res := demo.login (demo.at_time 200 "2")
               (UserLoginRequest.mk "12345678" "secret-one") None None demo.db in
  fst res = (true, "Login exitoso",
             Some (TokenResponse.mk "at-2" (Some "rt-2") "bearer" 1800)) /\
  user_of_subject (Some "u1") (snd res)
  = Some (User.with_last_login demo.u1 (Some 100) 200) /\
  User.last_login (User.with_last_login demo.u1 (Some 100) 200) = Some 100 /\
  User.updated_at (User.with_last_login demo.u1 (Some 100) 200) = Some 200.
Proof. cbv zeta. repeat split. Qed.

(** * Further properties of the engine *)

(** ** Constraints and freshness *)

Lemma existsb_eqb_in {A} (f : A -> string) (k : string) (l : list A) :
  existsb (fun x => String.eqb (f x) k) l = true <-> In k (map f l).
Proof.
  rewrite existsb_exists, in_map_iff.
  split; intros (x & H1 & H2); exists x.
  - apply String.eqb_eq in H2. tauto.
  - split; [tauto|]. apply String.eqb_eq. tauto.
Qed.

Lemma existsb_eqb_not_in {A} (f : A -> string) (k : string) (l : list A) :
  existsb (fun x => String.eqb (f x) k) l = false <-> ~ In k (map f l).
Proof.
  rewrite <- existsb_eqb_in. destruct (existsb _ l); split; congruence.
Qed.

Lemma no_violation_iff_fresh row rows :
  RefreshTokenRepository.violated_constraint row rows = None <-> fresh_row row rows.
Proof.
  unfold RefreshTokenRepository.violated_constraint, fresh_row.
  rewrite <- !existsb_eqb_not_in.
  destruct (existsb (fun r => String.eqb (RefreshToken.id r) _) rows);
    destruct (existsb (fun r => String.eqb (RefreshToken.token r) _) rows);
    split; try discriminate; try tauto; intros [? ?]; discriminate.
Qed.

Lemma violation_iff_taken row rows :
  (exists c, RefreshTokenRepository.violated_constraint row rows = Some c) <->
  (In (RefreshToken.id row) (map RefreshToken.id rows) \/
   In (RefreshToken.token row) (map RefreshToken.token rows)).
Proof.
  unfold RefreshTokenRepository.violated_constraint.
  rewrite <- !existsb_eqb_in.
  destruct (existsb (fun r => String.eqb (RefreshToken.id r) _) rows);
    destruct (existsb (fun r => String.eqb (RefreshToken.token r) _) rows);
    split; eauto; try tauto.
  - intros [c H]. discriminate.
  - intros [H|H]; discriminate.
Qed.

Lemma mark_revoked_keeps_ids token rows :
  map RefreshToken.id (mark_revoked token rows) = map RefreshToken.id rows.
Proof.
  unfold mark_revoked.
  induction rows as [|r rows IH]; simpl; [reflexivity|].
  destruct (String.eqb (RefreshToken.token r) token); simpl; congruence.
Qed.

Lemma fresh_row_after_revoke row token rows :
  fresh_row row (mark_revoked token rows) <-> fresh_row row rows.
Proof.
  unfold fresh_row. now rewrite mark_revoked_keeps_ids, mark_revoked_tokens.
Qed.

(** In a table where [f] has no duplicates, the row [find] returns for a
    key is the row that has it. *)
Lemma find_unique {A} (f : A -> string) (k : string) (l : list A) (a : A) :
  NoDup (map f l) -> In a l -> f a = k ->
  find (fun x => String.eqb (f x) k) l = Some a.
Proof.
  induction l as [|x l IH]; simpl; intros Hnd Hin Hk; [contradiction|].
  inversion Hnd as [|? ? Hnotin Hnd']; subst.
  destruct (String.eqb (f x) (f a)) eqn:E.
  - destruct Hin as [->|Hin]; [reflexivity|].
    apply String.eqb_eq in E. exfalso. apply Hnotin. rewrite E. now apply in_map.
  - destruct Hin as [->|Hin].
    + rewrite String.eqb_refl in E. discriminate.
    + now apply IH.
Qed.

Lemma find_app_last {A} (p : A -> bool) (l : list A) (x : A) :
  (forall y, In y l -> p y = false) -> p x = true ->
  find p (l ++ [x]) = Some x.
Proof.
  intros Hl Hx. induction l as [|y l IH]; simpl.
  - now rewrite Hx.
  - rewrite (Hl y) by now left. apply IH. intros z Hz. apply Hl. now right.
Qed.

Lemma find_app_some {A} (p : A -> bool) (l : list A) (x : A) :
  p x = true -> exists y, find p (l ++ [x]) = Some y.
Proof.
  intros Hx. induction l as [|y l IH]; simpl.
  - rewrite Hx. eauto.
  - destruct (p y); eauto.
Qed.

(** ** Persist, look up, revoke *)

Section StoreRoundTrip.

(** X1: a token that [create_refresh_token] has stored is what
    [get_refresh_token] returns for its string at any database time before
    its expiry, and once [revoke_refresh_token] has been called on the
    string the lookup returns nothing. *)
Theorem persist_lookup_revoke env user_id token expires_at ip st row st' :
  RefreshTokenRepository.create_refresh_token env user_id token expires_at ip st
  = (Returned row, st') ->
  forall env',
    (func_now env' < expires_at ->
     RefreshTokenRepository.get_refresh_token env' token st' = (Returned (Some row), st')) /\
    fst (RefreshTokenRepository.get_refresh_token env' token
           (snd (RefreshTokenRepository.revoke_refresh_token token st')))
    = Returned None.
Proof.
  unfold RefreshTokenRepository.create_refresh_token.
  destruct (RefreshTokenRepository.violated_constraint _ _) eqn:Hc; [discriminate|].
  intros [= <- <-] env'.
  apply no_violation_iff_fresh in Hc. destruct Hc as [_ Hfresh]. simpl in Hfresh.
  assert (Hothers : forall r, In r (refresh_tokens st) ->
            String.eqb (RefreshToken.token r) token = false).
  { intros r Hr. apply String.eqb_neq. intros E. apply Hfresh.
    rewrite <- E. now apply in_map. }
  split.
  - intros Hexp. unfold RefreshTokenRepository.get_refresh_token. simpl.
    rewrite find_app_last; [reflexivity| |].
    + intros r Hr. unfold RefreshTokenRepository.is_active.
      now rewrite (Hothers r Hr).
    + unfold RefreshTokenRepository.is_active. simpl.
      rewrite String.eqb_refl. simpl. now apply Z.ltb_lt.
  - rewrite revoke_state. unfold RefreshTokenRepository.get_refresh_token. simpl.
    f_equal. apply lookup_none_iff. intros r Hr (Htok & Hrev & _).
    unfold mark_revoked in Hr.
    assert (forall l, (forall x, In x l -> String.eqb (RefreshToken.token x) token = false) ->
              forall x, In x (update_first
                                (fun r => String.eqb (RefreshToken.token r) token)
                                (fun r => RefreshToken.with_is_revoked r true)
                                (l ++ [RefreshToken.mk (uuid4 env) user_id token expires_at
                                         false (Some (func_now env)) ip])) ->
                        RefreshToken.token x = token -> RefreshToken.is_revoked x = true) as H.
    { induction l as [|y l IH]; simpl; intros Hl x Hx Hxt.
      - rewrite String.eqb_refl in Hx. destruct Hx as [<-|[]]. reflexivity.
      - rewrite (Hl y) in Hx by now left. destruct Hx as [<-|Hx].
        + rewrite <- String.eqb_eq in Hxt. rewrite (Hl y) in Hxt by now left. discriminate.
        + apply IH; auto. }
    rewrite (H _ Hothers r Hr Htok) in Hrev. discriminate.
Qed.
End StoreRoundTrip.

Lemma persist_lookup_revoke_witness :
  RefreshTokenRepository.get_refresh_token (demo.at_time 500 "x") "rt-2"
    (snd (RefreshTokenRepository.create_refresh_token (demo.at_time 10 "2")
            "u1" "rt-2" 604810 None demo.db))
  = (Returned (Some (RefreshToken.mk "id-2" "u1" "rt-2" 604810 false (Some 10) None)),
     snd (RefreshTokenRepository.create_refresh_token (demo.at_time 10 "2")
            "u1" "rt-2" 604810 None demo.db)).
Proof.
  apply (proj1 (persist_lookup_revoke (demo.at_time 10 "2") "u1" "rt-2" 604810 None
                  demo.db _ _ eq_refl (demo.at_time 500 "x"))).
  reflexivity.
Defined.

(** ** What the engine reads and writes of a user row *)

Lemma map_update_first_same {A B} (g : A -> B) (p : A -> bool) (f : A -> A) (l : list A) :
  (forall x, g (f x) = g x) -> map g (update_first p f l) = map g l.
Proof.
  intros H. induction l as [|x l IH]; simpl; [reflexivity|].
  destruct (p x); simpl; [now rewrite H|now rewrite IH].
Qed.

Lemma find_related {A B} (g : A -> B) (p : A -> bool) (l1 l2 : list A) :
  map g l1 = map g l2 ->
  (forall x y, g x = g y -> p x = p y) ->
  match find p l1, find p l2 with
  | Some a, Some b => g a = g b
  | None, None => True
  | _, _ => False
  end.
Proof.
  intros Hmap Hp. revert l2 Hmap.
  induction l1 as [|x l1 IH]; intros [|y l2] Hmap; simpl in *; try discriminate; auto.
  injection Hmap as Hxy Hrest.
  rewrite (Hp x y Hxy). destruct (p y); [assumption|now apply IH].
Qed.

Lemma credentials_of_stamps u v :
  without_login_stamps u = without_login_stamps v -> credentials u = credentials v.
Proof.
  intros H. change (credentials (without_login_stamps u) = credentials (without_login_stamps v)).
  now rewrite H.
Qed.

Lemma map_credentials_of_stamps l1 l2 :
  map without_login_stamps l1 = map without_login_stamps l2 ->
  map credentials l1 = map credentials l2.
Proof.
  revert l2. induction l1 as [|x l1 IH]; intros [|y l2] H; cbn [map] in *;
    try discriminate; [reflexivity|].
  pose proof (f_equal (hd (without_login_stamps x)) H) as Hxy.
  pose proof (f_equal (@tl _) H) as Hrest. cbn [hd tl] in Hxy, Hrest.
  f_equal; [now apply credentials_of_stamps|now apply IH].
Qed.

Section UserRows.
Context {sec : security.t} {cfg : settings.t} {txt : ExceptionText}.

Lemma update_last_login_stamps_only env i st :
  map without_login_stamps (users (snd (UserRepository.update_last_login env i st)))
  = map without_login_stamps (users st).
Proof.
  unfold UserRepository.update_last_login, bind, UserRepository.get_user_by_id, ret.
  destruct (find _ (users st)) as [u|]; simpl; [|reflexivity].
  destruct (option_Z_eqb _ _); simpl; [reflexivity|].
  apply map_update_first_same. reflexivity.
Qed.

Lemma login_users env d ip ua st :
  map without_login_stamps (users (snd (AuthService.login_user env d ip ua st)))
  = map without_login_stamps (users st).
Proof.
  rewrite login_unfold.
  destruct (find _ (users st)) as [u|]; [|reflexivity].
  destruct (security.verify_password _ _); [|reflexivity].
  destruct (RefreshTokenRepository.violated_constraint _ _); [reflexivity|].
  simpl. now rewrite update_last_login_stamps_only.
Qed.

Lemma refresh_users env t ip st :
  users (snd (AuthService.refresh_access_token env t ip st)) = users st.
Proof.
  rewrite refresh_unfold. cbv zeta.
  destruct (truthy_dict _); [|reflexivity].
  destruct (find _ _); [|reflexivity].
  destruct (user_of_subject _ _); [|reflexivity].
  destruct (RefreshTokenRepository.violated_constraint _ _); reflexivity.
Qed.

Lemma logout_users env access r ip st :
  users (snd (AuthService.logout_user env access r ip st)) = users st.
Proof.
  rewrite logout_unfold. cbv zeta. destruct (truthy_dict _); reflexivity.
Qed.

(** X2: no engine call adds, removes or reorders user rows, and none
    changes a column other than [last_login] and [updated_at]; refresh,
    logout and verify leave the whole table as it is. *)
Theorem engine_writes_only_login_stamps env req st :
  map without_login_stamps (users (snd (handle env req st)))
  = map without_login_stamps (users st) /\
  match req with
  | Login _ _ _ => True
  | _ => users (snd (handle env req st)) = users st
  end.
Proof.
  destruct req as [d ip ua|t ip|access r ip|token]; simpl.
  - pose proof (login_users env d ip ua st).
    destruct (AuthService.login_user env d ip ua st). auto.
  - pose proof (refresh_users env t ip st) as H.
    destruct (AuthService.refresh_access_token env t ip st). simpl in *.
    rewrite H. auto.
  - pose proof (logout_users env access r ip st) as H.
    destruct (AuthService.logout_user env access r ip st). simpl in *.
    rewrite H. auto.
  - pose proof (verify_store_same env token st) as H.
    destruct (AuthService.verify_token env token st). simpl in *. subst. auto.
Qed.

Lemma handle_users_stamps env req st :
  map without_login_stamps (users (snd (handle env req st)))
  = map without_login_stamps (users st).
Proof.
  destruct req as [d ip ua|t ip|access r ip|token]; simpl.
  - pose proof (login_users env d ip ua st).
    now destruct (AuthService.login_user env d ip ua st).
  - pose proof (refresh_users env t ip st) as H.
    destruct (AuthService.refresh_access_token env t ip st). simpl in *. now rewrite H.
  - pose proof (logout_users env access r ip st) as H.
    destruct (AuthService.logout_user env access r ip st). simpl in *. now rewrite H.
  - pose proof (verify_store_same env token st) as H.
    destruct (AuthService.verify_token env token st). simpl in *. now subst.
Qed.

Lemma run_users_stamps calls : forall st,
  map without_login_stamps (users (run calls st)) = map without_login_stamps (users st).
Proof.
  induction calls as [|[env req] calls IH]; intros st; simpl; [reflexivity|].
  now rewrite IH, handle_users_stamps.
Qed.

(** X3: the three uniqueness constraints of the schema (token strings of
    [refresh_tokens], ids and cedulas of [users]) hold after any sequence
    of engine calls if they held before. *)
Theorem engine_keeps_unique_keys calls st :
  unique_tokens st -> unique_user_ids st -> unique_cedulas st ->
  unique_tokens (run calls st) /\ unique_user_ids (run calls st) /\
  unique_cedulas (run calls st).
Proof.
  intros Ht Hi Hc. split; [now apply run_unique|].
  pose proof (run_users_stamps calls st) as H.
  unfold unique_user_ids, unique_cedulas in *.
  assert (forall l, map User.id l = map User.id (map without_login_stamps l)) as Eid.
  { intros l. rewrite map_map. reflexivity. }
  assert (forall l, map User.cedula l = map User.cedula (map without_login_stamps l)) as Ec.
  { intros l. rewrite map_map. reflexivity. }
  rewrite (Eid (users (run calls st))), (Ec (users (run calls st))), H, <- Eid, <- Ec.
  auto.
Qed.
End UserRows.

Lemma demo_db_unique_ids : unique_user_ids demo.db.
Proof. unfold unique_user_ids. simpl. repeat constructor; simpl; intuition discriminate. Qed.

Lemma demo_db_unique_cedulas : unique_cedulas demo.db.
Proof. unfold unique_cedulas. simpl. repeat constructor; simpl; intuition discriminate. Qed.

Lemma engine_keeps_unique_keys_witness :
  unique_tokens
    (@run demo.sec demo.cfg demo.txt
       [(demo.at_time 10 "2", Refresh "rt-1" None);
        (demo.at_time 20 "3",
         Login (UserLoginRequest.mk "87654321" "secret-two") None None);
        (demo.at_time 30 "4", Logout "at-1" (Some "rt-3") None)]
       demo.db).
Proof.
  apply (@engine_keeps_unique_keys demo.sec demo.cfg demo.txt _ demo.db
           demo_db_unique demo_db_unique_ids demo_db_unique_cedulas).
Defined.

(** ** Login, then refresh *)

Section LoginRefresh.
Context {sec : security.t} {cfg : settings.t} {txt : ExceptionText}.

(** X4: a successful login appends exactly one row to [refresh_tokens]: it
    belongs to the authenticated user, holds the refresh token string of
    the response, is unrevoked, expires REFRESH_TOKEN_EXPIRE_DAYS days
    after the application clock and records the caller's address; the
    response is a bearer pair whose [expires_in] is the access lifetime in
    seconds; and one audit call "login" is made for that user. *)
Theorem successful_login_effects env d ip ua st msg payload st' :
  AuthService.login_user env d ip ua st = ((true, msg, payload), st') ->
  exists u access_token refresh_token,
    In u (users st) /\
    User.cedula u = UserLoginRequest.cedula d /\
    security.verify_password (UserLoginRequest.password d) (User.password_hash u) = true /\
    msg = "Login exitoso" /\
    payload = Some (TokenResponse.mk access_token (Some refresh_token) "bearer"
                      (settings.ACCESS_TOKEN_EXPIRE_MINUTES * 60)) /\
    refresh_tokens st'
    = (refresh_tokens st ++
       [RefreshToken.mk (uuid4 env) (User.id u) refresh_token
          (utcnow env + settings.REFRESH_TOKEN_EXPIRE_DAYS * 86400)
          false (Some (func_now env)) ip])%list /\
    audit_calls st'
    = (audit_calls st ++
       [AuditCall.mk (Some (User.id u)) "login" (Some "user")
          (Some [("cedula", User.cedula u)]) ip ua])%list.
Proof.
  rewrite login_unfold.
  destruct (find _ (users st)) as [u|] eqn:F; [|discriminate].
  destruct (security.verify_password _ _) eqn:V; [|discriminate].
  destruct (RefreshTokenRepository.violated_constraint _ _); [discriminate|].
  intros [= <- <- <-].
  apply find_some in F as [Hin E]. apply String.eqb_eq in E.
  exists u. do 2 eexists. repeat split; try eassumption; try reflexivity.
  - simpl. now destruct (update_last_login_keeps env (User.id u)
      (with_refresh_tokens st (refresh_tokens st ++ [minted_row env u ip]))) as (-> & _ & _).
  - simpl. now destruct (update_last_login_keeps env (User.id u)
      (with_refresh_tokens st (refresh_tokens st ++ [minted_row env u ip]))) as (_ & -> & _).
Qed.

Lemma minted_row_by_id env u v ip :
  User.id u = User.id v -> minted_row env u ip = minted_row env v ip.
Proof. unfold minted_row. now intros ->. Qed.

Lemma minted_pair_by_credentials env u v :
  credentials u = credentials v -> minted_pair env u = minted_pair env v.
Proof.
  unfold credentials, minted_pair, AuthService.token_claims.
  intros [= -> -> _ ->]. reflexivity.
Qed.

(** X5: the refresh token a login returns can be exchanged.  If the codec
    accepts it with the subject it was minted for, the database time is
    before its expiry, and the id and token string of the next row are not
    taken, then refresh succeeds with a new pair for the same user. *)
Theorem login_then_refresh env d ip ua st msg pair st1 rt u env' ip' :
  unique_cedulas st -> unique_user_ids st ->
  AuthService.login_user env d ip ua st = ((true, msg, Some pair), st1) ->
  TokenResponse.refresh_token pair = Some rt ->
  In u (users st) -> User.cedula u = UserLoginRequest.cedula d ->
  truthy_dict (security.verify_token rt "refresh" env') = true ->
  subject (security.verify_token rt "refresh" env') = Some (User.id u) ->
  func_now env' < utcnow env + timedelta_days settings.REFRESH_TOKEN_EXPIRE_DAYS ->
  fresh_row (minted_row env' u ip') (refresh_tokens st1) ->
  fst (AuthService.refresh_access_token env' rt ip' st1)
  = (true, "Token renovado exitosamente", Some (minted_pair env' u)).
Proof.
  intros Hced Hids Hlogin Hrt Hin Hcu Hok Hsub Htime Hfresh.
  pose proof (login_users env d ip ua st) as Husers. rewrite Hlogin in Husers.
  simpl in Husers.
  rewrite login_unfold in Hlogin.
  rewrite (find_unique User.cedula _ _ u Hced Hin Hcu) in Hlogin.
  destruct (security.verify_password _ _); [|discriminate].
  destruct (RefreshTokenRepository.violated_constraint _ _); [discriminate|].
  injection Hlogin as _ Hpair Hst1.
  assert (refresh_tokens st1 = (refresh_tokens st ++ [minted_row env u ip])%list) as Hrows.
  { rewrite <- Hst1. simpl.
    now destruct (update_last_login_keeps env (User.id u)
      (with_refresh_tokens st (refresh_tokens st ++ [minted_row env u ip]))) as (-> & _ & _). }
  assert (rt = security.create_refresh_token [("sub", User.id u)] env) as Ert.
  { rewrite <- Hpair in Hrt. simpl in Hrt. congruence. }
  rewrite refresh_unfold. cbv zeta. rewrite Hok, Hsub.
  destruct (find_app_some (RefreshTokenRepository.is_active env' rt)
              (refresh_tokens st) (minted_row env u ip)) as [row Hrow].
  { unfold RefreshTokenRepository.is_active, minted_row. simpl.
    rewrite Ert, String.eqb_refl. simpl. now apply Z.ltb_lt. }
  rewrite Hrows, Hrow.
  pose proof (find_related without_login_stamps
                (fun x => String.eqb (User.id x) (User.id u)) (users st1) (users st) Husers)
    as Hrel.
  unfold user_of_subject.
  rewrite (find_unique User.id _ _ u Hids Hin eq_refl) in Hrel.
  destruct (find _ (users st1)) as [u'|].
  2:{ exfalso. apply Hrel. intros x y E. apply credentials_of_stamps in E.
      unfold credentials in E. now injection E as -> _ _ _. }
  assert (credentials u' = credentials u) as Hcred.
  { apply credentials_of_stamps, Hrel. intros x y E. apply credentials_of_stamps in E.
    unfold credentials in E. now injection E as -> _ _ _. }
  assert (User.id u' = User.id u) as Hid.
  { unfold credentials in Hcred. now injection Hcred. }
  rewrite (minted_row_by_id env' u' u ip' Hid), (minted_pair_by_credentials env' u' u Hcred).
  rewrite <- Hrows.
  apply fresh_row_after_revoke with (token := rt) in Hfresh.
  apply no_violation_iff_fresh in Hfresh. rewrite Hfresh. reflexivity.
Qed.

(** X6: refresh does not undo its revocation when the insert is refused.
    If the new row's id or token string is already in the table, the call
    fails with "Error renovando token: ...", yet the presented token is
    revoked and no later lookup finds it: the session is lost. *)
Theorem refresh_collision_revokes_without_reissue env t ip st u :
  unique_tokens st ->
  truthy_dict (security.verify_token t "refresh" env) = true ->
  (exists r, In r (refresh_tokens st) /\ usable_row env t r) ->
  user_of_subject (subject (security.verify_token t "refresh" env)) st = Some u ->
  (In (RefreshToken.id (minted_row env u ip)) (map RefreshToken.id (refresh_tokens st)) \/
   In (RefreshToken.token (minted_row env u ip))
      (map RefreshToken.token (refresh_tokens st))) ->
  exists c,
    AuthService.refresh_access_token env t ip st
    = ((false, "Error renovando token: " ++ str (IntegrityError c), None),
       with_refresh_tokens st (mark_revoked t (refresh_tokens st))) /\
    forall env',
      find (RefreshTokenRepository.is_active env' t)
           (mark_revoked t (refresh_tokens st)) = None.
Proof.
  intros Hnd Hok (r & Hin & Hu) Huser Htaken.
  rewrite refresh_unfold. cbv zeta. rewrite Hok, Huser.
  destruct (find (RefreshTokenRepository.is_active env t) (refresh_tokens st)) eqn:F.
  2:{ exfalso. rewrite lookup_none_iff in F. exact (F r Hin Hu). }
  rewrite <- (mark_revoked_keeps_ids t), <- (mark_revoked_tokens t) in Htaken.
  apply violation_iff_taken in Htaken as [c Hc]. rewrite Hc.
  exists c. split; [reflexivity|].
  intros env'. apply lookup_none_iff. intros x Hx (Hxt & Hxr & _).
  rewrite (mark_revoked_all t _ Hnd x Hx Hxt) in Hxr. discriminate.
Qed.

(** X7: a login whose new row is refused (its id or token string is
    already stored) fails with "Error en login: ..." and leaves everything
    as it was: no row, no last-login update, no audit call. *)
Theorem login_collision_changes_nothing env d ip ua st u :
  unique_cedulas st ->
  In u (users st) -> User.cedula u = UserLoginRequest.cedula d ->
  security.verify_password (UserLoginRequest.password d) (User.password_hash u) = true ->
  (In (RefreshToken.id (minted_row env u ip)) (map RefreshToken.id (refresh_tokens st)) \/
   In (RefreshToken.token (minted_row env u ip))
      (map RefreshToken.token (refresh_tokens st))) ->
  exists c,
    AuthService.login_user env d ip ua st
    = ((false, "Error en login: " ++ str (IntegrityError c), None), st).
Proof.
  intros Hced Hin Hcu Hpw Htaken.
  rewrite login_unfold, (find_unique User.cedula _ _ u Hced Hin Hcu), Hpw.
  apply violation_iff_taken in Htaken as [c Hc]. rewrite Hc. eauto.
Qed.
End LoginRefresh.

Lemma successful_login_effects_witness :
  exists u access_token refresh_token,
    In u (users demo.db) /\ User.cedula u = "12345678" /\
    refresh_tokens
      (snd (demo.login (demo.at_time 200 "2")
              (UserLoginRequest.mk "12345678" "secret-one") (Some "10.0.0.1") None demo.db))
    = (refresh_tokens demo.db ++
       [RefreshToken.mk "id-2" (User.id u) refresh_token (200 + 7 * 86400)
          false (Some 200) (Some "10.0.0.1")])%list /\
    access_token = "at-2".
Proof.
  destruct (@successful_login_effects demo.sec demo.cfg demo.txt
              (demo.at_time 200 "2") (UserLoginRequest.mk "12345678" "secret-one")
              (Some "10.0.0.1") None demo.db
              "Login exitoso"
              (Some (TokenResponse.mk "at-2" (Some "rt-2") "bearer" 1800))
              (snd (demo.login (demo.at_time 200 "2")
                      (UserLoginRequest.mk "12345678" "secret-one")
                      (Some "10.0.0.1") None demo.db))
              eq_refl)
    as (u & a & r & Hin & Hc & _ & _ & Hp & Hrows & _).
  exists u, a, r. repeat split; try assumption.
  injection Hp as -> _. reflexivity.
Defined.

(** Ana logs in at time 200 and exchanges the refresh token at time 300. *)
Lemma login_then_refresh_witness :
  fst (demo.refresh (demo.at_time 300 "3") "rt-2" None
         (snd (demo.login (demo.at_time 200 "2")
                 (UserLoginRequest.mk "12345678" "secret-one") None None demo.db)))
  = (true, "Token renovado exitosamente",
     Some (TokenResponse.mk "at-3" (Some "rt-3") "bearer" 1800)).
Proof.
  apply (@login_then_refresh demo.sec demo.cfg demo.txt
           (demo.at_time 200 "2") (UserLoginRequest.mk "12345678" "secret-one")
           None None demo.db "Login exitoso"
           (TokenResponse.mk "at-2" (Some "rt-2") "bearer" 1800)
           (snd (demo.login (demo.at_time 200 "2")
                   (UserLoginRequest.mk "12345678" "secret-one") None None demo.db))
           "rt-2" demo.u1 (demo.at_time 300 "3") None
           demo_db_unique_cedulas demo_db_unique_ids eq_refl eq_refl).
  - simpl. auto.
  - reflexivity.
  - reflexivity.
  - reflexivity.
  - reflexivity.
  - split; simpl; intuition discriminate.
Defined.

(** Ana refreshes "rt-1" in a call whose new token would be "rt-9", the
    string of Luis's row. *)
Lemma refresh_collision_revokes_without_reissue_witness :
  exists c,
    demo.refresh (demo.at_time 10 "9") "rt-1" None demo.db
    = ((false, "Error renovando token: " ++ demo.txt (IntegrityError c), None),
       with_refresh_tokens demo.db (mark_revoked "rt-1" (refresh_tokens demo.db))).
Proof.
  destruct (@refresh_collision_revokes_without_reissue demo.sec demo.cfg demo.txt
              (demo.at_time 10 "9") "rt-1" None demo.db demo.u1 demo_db_unique eq_refl)
    as (c & H & _).
  - exists (demo.row "id-1" "u1" "rt-1" 604800 false).
    split; [simpl; auto|]. repeat split.
  - reflexivity.
  - right. simpl. auto.
  - exists c. exact H.
Defined.

(** Ana logs in in a call whose new token would be "rt-1", already stored. *)
Lemma login_collision_changes_nothing_witness :
  exists c,
    demo.login (demo.at_time 200 "1") (UserLoginRequest.mk "12345678" "secret-one")
      None None demo.db
    = ((false, "Error en login: " ++ demo.txt (IntegrityError c), None), demo.db).
Proof.
  apply (@login_collision_changes_nothing demo.sec demo.cfg demo.txt
           (demo.at_time 200 "1") (UserLoginRequest.mk "12345678" "secret-one")
           None None demo.db demo.u1 demo_db_unique_cedulas).
  - simpl. auto.
  - reflexivity.
  - reflexivity.
  - left. simpl. auto.
Defined.

(** ** Logout *)

Section LogoutMore.
Context {sec : security.t} {cfg : settings.t} {txt : ExceptionText}.

(** X8: a refresh token that a successful logout was given is never
    accepted again: whatever calls follow, refresh with that string fails
    (with "Refresh token no encontrado" when the codec accepts it, "Refresh
    token inválido o expirado" otherwise) and changes nothing. *)
Theorem logged_out_token_never_refreshes env access r ip st row :
  unique_tokens st ->
  truthy_dict (security.verify_token access "access" env) = true ->
  truthy_str (Some r) = true ->
  In row (refresh_tokens st) -> RefreshToken.token row = r ->
  forall calls env' ip',
    let st2 := run calls (snd (AuthService.logout_user env access (Some r) ip st)) in
    AuthService.refresh_access_token env' r ip' st2
    = (if truthy_dict (security.verify_token r "refresh" env')
       then (false, "Refresh token no encontrado", None)
       else (false, "Refresh token inválido o expirado", None), st2).
Proof.
  intros Hnd Hok Hr Hin Htok calls env' ip' st2.
  apply refresh_of_spent. apply run_spent.
  rewrite logout_unfold. cbv zeta. rewrite Hok. unfold logout_rows. rewrite Hr.
  unfold spent. simpl. split.
  - exists (RefreshToken.with_is_revoked row true).
    split; [now apply mark_revoked_first|now rewrite <- Htok].
  - now apply mark_revoked_all.
Qed.

(** X9: logout is best-effort about the refresh token.  When none is
    supplied, the supplied string is empty, or it is a string the store
    accepts as text and no row holds it, the table of refresh tokens and
    the users are left as they are, and a logout with a valid access token
    still succeeds.  (For a string the store refuses, the revoke query
    raises and the logout answers "Error en logout: ...".) *)
Theorem logout_without_stored_token env access r ip st :
  (truthy_str r = false \/
   exists s, r = Some s /\ storable_text s /\
             forall row, In row (refresh_tokens st) -> RefreshToken.token row <> s) ->
  let res := AuthService.logout_user env access r ip st in
  refresh_tokens (snd res) = refresh_tokens st /\
  users (snd res) = users st /\
  (truthy_dict (security.verify_token access "access" env) = true ->
   fst res = (true, "Logout exitoso")).
Proof.
  intros H. cbv zeta. rewrite logout_unfold. cbv zeta.
  destruct (truthy_dict _); simpl; [|repeat split; discriminate].
  repeat split. unfold logout_rows.
  destruct H as [H|(s & -> & _ & H)].
  - destruct r; [now rewrite H|reflexivity].
  - destruct (truthy_str (Some s)); [|reflexivity].
    apply update_first_no_match. apply find_token_none.
    intros Hin. apply in_map_iff in Hin as (row & Htok & Hrow).
    exact (H row Hrow Htok).
Qed.

(** X10: the audit trail only grows, by at most one call per engine call:
    earlier calls stay as they are, and refresh and verify add none. *)
Theorem audit_trail_append_only env req st :
  exists added,
    audit_calls (snd (handle env req st)) = (audit_calls st ++ added)%list /\
    (length added <= 1)%nat /\
    match req with
    | Refresh _ _ | Verify _ => added = []
    | _ => True
    end.
Proof.
  destruct req as [d ip ua|t ip|access r ip|token]; simpl.
  - pose proof (login_unfold env d ip ua st) as E.
    destruct (AuthService.login_user env d ip ua st) as [res st']. simpl.
    destruct (find _ (users st)) as [u|].
    2:{ injection E as _ ->. exists [login_failed_call d ip ua]. simpl. auto. }
    destruct (security.verify_password _ _).
    2:{ injection E as _ ->. exists [login_failed_call d ip ua]. simpl. auto. }
    destruct (RefreshTokenRepository.violated_constraint _ _).
    { injection E as _ ->. exists []. rewrite app_nil_r. simpl. auto. }
    injection E as _ ->. exists [login_call u ip ua]. simpl.
    destruct (update_last_login_keeps env (User.id u)
      (with_refresh_tokens st (refresh_tokens st ++ [minted_row env u ip]))) as (_ & -> & _).
    simpl. auto.
  - exists []. rewrite app_nil_r. rewrite refresh_unfold. cbv zeta.
    destruct (truthy_dict _); [|simpl; auto].
    destruct (find _ _); [|simpl; auto].
    destruct (user_of_subject _ _); [|simpl; auto].
    destruct (RefreshTokenRepository.violated_constraint _ _); simpl; auto.
  - rewrite logout_unfold. cbv zeta. destruct (truthy_dict _); simpl.
    + eexists [_]. simpl. auto.
    + exists []. rewrite app_nil_r. simpl. auto.
  - exists []. rewrite app_nil_r.
    pose proof (verify_store_same env token st) as H.
    destruct (AuthService.verify_token env token st). simpl in *. subst. auto.
Qed.

(** X11: access tokens are not tied to the store.  No engine call changes
    what verify answers for a token at a given time; in particular a
    logout that revokes the refresh token leaves the access token valid. *)
Theorem verify_unaffected_by_engine env req st env' token :
  fst (AuthService.verify_token env' token (snd (handle env req st)))
  = fst (AuthService.verify_token env' token st).
Proof.
  pose proof (handle_users_stamps env req st) as Husers.
  rewrite !verify_unfold. cbv zeta.
  destruct (truthy_dict _); [|reflexivity].
  unfold user_of_subject.
  destruct (subject (security.verify_token token "access" env')) as [i|]; [|reflexivity].
  pose proof (find_related without_login_stamps
                (fun x => String.eqb (User.id x) i)
                (users (snd (handle env req st))) (users st) Husers) as Hrel.
  destruct (find _ (users (snd (handle env req st))));
    destruct (find _ (users st)); try reflexivity; exfalso; apply Hrel;
    intros x y E; apply credentials_of_stamps in E; unfold credentials in E;
    now injection E as -> _ _ _.
Qed.
End LogoutMore.

(** Ana logs out with "rt-1"; Luis then logs in; "rt-1" is refused. *)
Lemma logged_out_token_never_refreshes_witness :
  fst (demo.refresh (demo.at_time 40 "4") "rt-1" None
         (@run demo.sec demo.cfg demo.txt
            [(demo.at_time 30 "3",
              Login (UserLoginRequest.mk "87654321" "secret-two") None None)]
            (snd (demo.logout (demo.at_time 20 "x") "at-1" (Some "rt-1") None demo.db))))
  = (false, "Refresh token no encontrado", None).
Proof.
  unfold demo.refresh.
  rewrite (@logged_out_token_never_refreshes demo.sec demo.cfg demo.txt
             (demo.at_time 20 "x") "at-1" "rt-1" None demo.db
             (demo.row "id-1" "u1" "rt-1" 604800 false)
             demo_db_unique eq_refl eq_refl (or_introl eq_refl) eq_refl).
  reflexivity.
Defined.

(** A logout with a string no row holds. *)
Lemma logout_without_stored_token_witness :
  refresh_tokens (snd (demo.logout (demo.at_time 20 "x") "at-1" (Some "unknown") None demo.db))
  = refresh_tokens demo.db.
Proof.
  apply (@logout_without_stored_token demo.sec demo.txt
           (demo.at_time 20 "x") "at-1" (Some "unknown") None demo.db).
  right. exists "unknown". split; [reflexivity|]. split.
  - unfold storable_text. simpl. intuition discriminate.
  - intros row Hin. simpl in Hin. destruct Hin as [<-|[<-|[<-|[]]]]; discriminate.
Defined.

(** * Registration and user administration *)

Lemma filter_cedula_nil c (l : list User.t) :
  filter (fun u => String.eqb (User.cedula u) c) l = [] <-> ~ In c (map User.cedula l).
Proof.
  induction l as [|u l IH]; simpl; [tauto|].
  destruct (String.eqb (User.cedula u) c) eqn:E.
  - apply String.eqb_eq in E. split; [discriminate|]. intros H. exfalso. auto.
  - apply String.eqb_neq in E. rewrite IH. tauto.
Qed.

Section Registration.
Context {sec : security.t} {cfg : settings.t} {txt : ExceptionText}
        {hasher : PasswordHasher} {uuid : UuidParser} {dtxt : DictText}.

Lemma register_unfold env data ip ua st :
  AuthService.register_user env data ip ua st =
  match filter (fun u => String.eqb (User.cedula u) (UserRegisterRequest.cedula data))
               (users st) with
  | _ :: _ => ((false, "La cédula ya está registrada", None), st)
  | [] =>
      match UserRepository.violated_user_constraint (registered_user env data) (users st) with
      | Some c =>
          ((false,
            "Error registrando usuario: " ++ str (IntegrityError c) ++ " "
            ++ str_dict (AuthService.user_dict_after_create env data), None), st)
      | None =>
          ((true, "Usuario registrado exitosamente", Some [("user_id", uuid4 env)]),
           emit (AuditCall.mk (Some (uuid4 env)) "register" (Some "user")
                   (Some [("cedula", UserRegisterRequest.cedula data)]) ip ua)
             (with_users st (users st ++ [registered_user env data])))
      end
  end.
Proof.
  unfold AuthService.register_user, try_except.
  unfold bind at 1. unfold UserRepository.check_cedula_exists.
  destruct (filter _ (users st)); [|reflexivity].
  unfold bind at 1. unfold UserRepository.create_user.
  change (User.mk (uuid4 env) (UserRegisterRequest.cedula data)
            (get_password_hash (UserRegisterRequest.confirm_password data) env)
            (UserRegisterRequest.first_name data) (UserRegisterRequest.last_name data)
            (UserRegisterRequest.phone data) (UserRegisterRequest.address data)
            None None None CUSTOMER PENDING_VERIFICATION false
            (Some (func_now env)) (Some (func_now env)) None)
    with (registered_user env data).
  destruct (UserRepository.violated_user_constraint _ _); reflexivity.
Qed.

(** X12: registering a cedula that a user already has fails with "La
    cédula ya está registrada" and leaves the state as it was. *)
Theorem register_existing_cedula env data ip ua st :
  (exists u, In u (users st) /\ User.cedula u = UserRegisterRequest.cedula data) ->
  AuthService.register_user env data ip ua st
  = ((false, "La cédula ya está registrada", None), st).
Proof.
  intros (u & Hin & Hc). rewrite register_unfold.
  destruct (filter _ (users st)) eqn:F; [|reflexivity].
  exfalso. apply filter_cedula_nil in F. apply F. rewrite <- Hc. now apply in_map.
Qed.

(** X13: a successful registration appends one user row: the request's
    fields, the hash of [confirm_password], role customer, status pending
    verification, unverified, never logged in; it returns the new id,
    issues no token, and keeps ids and cedulas unique. *)
Theorem successful_registration_effects env data ip ua st msg payload st' :
  AuthService.register_user env data ip ua st = ((true, msg, payload), st') ->
  users st'
  = (users st ++
     [User.mk (uuid4 env) (UserRegisterRequest.cedula data)
        (get_password_hash (UserRegisterRequest.confirm_password data) env)
        (UserRegisterRequest.first_name data) (UserRegisterRequest.last_name data)
        (UserRegisterRequest.phone data) (UserRegisterRequest.address data)
        None None None CUSTOMER PENDING_VERIFICATION false
        (Some (func_now env)) (Some (func_now env)) None])%list /\
  payload = Some [("user_id", uuid4 env)] /\
  refresh_tokens st' = refresh_tokens st /\
  (unique_user_ids st -> unique_user_ids st') /\
  (unique_cedulas st -> unique_cedulas st').
Proof.
  rewrite register_unfold.
  destruct (filter _ (users st)) eqn:F; [|discriminate].
  destruct (UserRepository.violated_user_constraint _ _) eqn:Hc; [discriminate|].
  intros [= _ <- <-]. simpl. repeat split.
  - unfold unique_user_ids. simpl. rewrite map_app. simpl. intros Hnd.
    apply NoDup_app; [assumption|repeat constructor; simpl; tauto|].
    intros x Hx [<-|[]].
    unfold UserRepository.violated_user_constraint in Hc.
    destruct (existsb (fun u => String.eqb (User.id u) _) (users st)) eqn:E;
      [discriminate|].
    apply (existsb_eqb_not_in User.id) in E. contradiction.
  - unfold unique_cedulas. simpl. rewrite map_app. simpl. intros Hnd.
    apply NoDup_app; [assumption|repeat constructor; simpl; tauto|].
    intros x Hx [<-|[]]. apply filter_cedula_nil in F. contradiction.
Qed.

(** X14: a user who has just registered can log in at once with the
    password that was confirmed, although the account is still pending
    verification: login does not look at the status.  It needs the hasher
    to verify its own hash and the next token row to be free. *)
Theorem register_then_login env0 data ip0 ua0 st msg payload st1 env ip ua :
  AuthService.register_user env0 data ip0 ua0 st = ((true, msg, payload), st1) ->
  security.verify_password (UserRegisterRequest.confirm_password data)
    (get_password_hash (UserRegisterRequest.confirm_password data) env0) = true ->
  fresh_row (minted_row env (registered_user env0 data) ip) (refresh_tokens st) ->
  fst (AuthService.login_user env
         (UserLoginRequest.mk (UserRegisterRequest.cedula data)
            (UserRegisterRequest.confirm_password data)) ip ua st1)
  = (true, "Login exitoso", Some (minted_pair env (registered_user env0 data))) /\
  User.status (registered_user env0 data) = PENDING_VERIFICATION /\
  User.is_verified (registered_user env0 data) = false.
Proof.
  rewrite register_unfold.
  destruct (filter _ (users st)) eqn:F; [|discriminate].
  destruct (UserRepository.violated_user_constraint _ _); [discriminate|].
  intros [= _ _ <-] Hpw Hfresh. split; [|split; reflexivity].
  rewrite login_unfold. simpl.
  rewrite find_app_last.
  - simpl. rewrite Hpw. apply no_violation_iff_fresh in Hfresh. now rewrite Hfresh.
  - intros u Hu. apply String.eqb_neq. intros E.
    apply filter_cedula_nil in F. apply F. rewrite <- E. now apply in_map.
  - simpl. apply String.eqb_refl.
Qed.
End Registration.

Lemma register_existing_cedula_witness :
  demo.register (demo.at_time 300 "u3")
    (UserRegisterRequest.mk "12345678" "Ana" "Otra" "3000000000" "Calle 9 # 9-9, Bogota"
       "secret-nine" "secret-nine") None None demo.db
  = ((false, "La cédula ya está registrada", None), demo.db).
Proof.
  apply (@register_existing_cedula demo.txt demo.hasher demo.uuid demo.dtxt).
  exists demo.u1. simpl. auto.
Defined.

Lemma successful_registration_effects_witness :
  unique_cedulas (snd (demo.register (demo.at_time 300 "u3") demo.carla None None demo.db)).
Proof.
  apply (@successful_registration_effects demo.txt demo.hasher demo.uuid demo.dtxt
           (demo.at_time 300 "u3") demo.carla None None demo.db
           "Usuario registrado exitosamente" (Some [("user_id", "id-u3")]) _ eq_refl).
  exact demo_db_unique_cedulas.
Defined.

(** Carla registers at time 300 and logs in at time 310. *)
Lemma register_then_login_witness :
  fst (demo.login (demo.at_time 310 "4") (UserLoginRequest.mk "11223344" "secret-three")
         None None
         (snd (demo.register (demo.at_time 300 "u3") demo.carla None None demo.db)))
  = (true, "Login exitoso", Some (TokenResponse.mk "at-4" (Some "rt-4") "bearer" 1800)).
Proof.
  apply (@register_then_login demo.sec demo.cfg demo.txt demo.hasher demo.uuid demo.dtxt
           (demo.at_time 300 "u3") demo.carla None None demo.db
           "Usuario registrado exitosamente" (Some [("user_id", "id-u3")]) _
           (demo.at_time 310 "4") None None eq_refl).
  - reflexivity.
  - split; simpl; intuition discriminate.
Defined.

(** ** The status of a user and the token engine *)

Section OutcomesByCredentials.
Context {sec : security.t} {cfg : settings.t} {txt : ExceptionText}.

Lemma credentials_cedula x y : credentials x = credentials y -> User.cedula x = User.cedula y.
Proof. unfold credentials. now intros [= _ -> _ _]. Qed.

Lemma credentials_id x y : credentials x = credentials y -> User.id x = User.id y.
Proof. unfold credentials. now intros [= -> _ _ _]. Qed.

Lemma credentials_hash x y :
  credentials x = credentials y -> User.password_hash x = User.password_hash y.
Proof. unfold credentials. now intros [= _ _ -> _]. Qed.

(** The answers of login, refresh and verify depend on the users table
    only through the id, cedula, password hash and role of its rows. *)
Lemma outcomes_by_credentials a b :
  map credentials (users a) = map credentials (users b) ->
  refresh_tokens a = refresh_tokens b ->
  (forall env d ip ua,
     fst (AuthService.login_user env d ip ua a) = fst (AuthService.login_user env d ip ua b)) /\
  (forall env t ip,
     fst (AuthService.refresh_access_token env t ip a)
     = fst (AuthService.refresh_access_token env t ip b)) /\
  (forall env token,
     fst (AuthService.verify_token env token a) = fst (AuthService.verify_token env token b)).
Proof.
  intros Hu Hr. split; [|split].
  - intros env d ip ua. rewrite !login_unfold.
    pose proof (find_related credentials
                  (fun u => String.eqb (User.cedula u) (UserLoginRequest.cedula d))
                  (users a) (users b) Hu) as Hrel.
    destruct (find _ (users a)) as [x|]; destruct (find _ (users b)) as [y|];
      try reflexivity;
      try (exfalso; apply Hrel; intros ? ? E; now rewrite (credentials_cedula _ _ E)).
    assert (credentials x = credentials y) as E.
    { apply Hrel. intros ? ? E. now rewrite (credentials_cedula _ _ E). }
    rewrite (credentials_hash _ _ E), (minted_row_by_id env x y ip (credentials_id _ _ E)),
      (minted_pair_by_credentials env x y E), Hr.
    destruct (security.verify_password _ _); [|reflexivity].
    destruct (RefreshTokenRepository.violated_constraint _ _); reflexivity.
  - intros env t ip. rewrite !refresh_unfold. cbv zeta. rewrite Hr.
    destruct (truthy_dict _); [|reflexivity].
    destruct (find _ (refresh_tokens b)); [|reflexivity].
    unfold user_of_subject.
    destruct (subject (security.verify_token t "refresh" env)) as [i|]; [|reflexivity].
    pose proof (find_related credentials (fun u => String.eqb (User.id u) i)
                  (users a) (users b) Hu) as Hrel.
    destruct (find _ (users a)) as [x|]; destruct (find _ (users b)) as [y|];
      try reflexivity;
      try (exfalso; apply Hrel; intros ? ? E; now rewrite (credentials_id _ _ E)).
    assert (credentials x = credentials y) as E.
    { apply Hrel. intros ? ? E. now rewrite (credentials_id _ _ E). }
    rewrite (minted_row_by_id env x y ip (credentials_id _ _ E)),
      (minted_pair_by_credentials env x y E).
    destruct (RefreshTokenRepository.violated_constraint _ _); reflexivity.
  - intros env token. rewrite !verify_unfold. cbv zeta.
    destruct (truthy_dict _); [|reflexivity].
    unfold user_of_subject.
    destruct (subject (security.verify_token token "access" env)) as [i|]; [|reflexivity].
    pose proof (find_related credentials (fun u => String.eqb (User.id u) i)
                  (users a) (users b) Hu) as Hrel.
    destruct (find _ (users a)); destruct (find _ (users b)); try reflexivity;
      exfalso; apply Hrel; intros ? ? E; now rewrite (credentials_id _ _ E).
Qed.
End OutcomesByCredentials.

Section Administration.
Context {sec : security.t} {cfg : settings.t} {txt : ExceptionText}
        {vtxt : ValidationText}.

Lemma repo_update_user_status_state env user_id status st :
  let st' := snd (UserRepository.update_user_status env user_id status st) in
  map credentials (users st') = map credentials (users st) /\
  refresh_tokens st' = refresh_tokens st /\ audit_calls st' = audit_calls st.
Proof.
  unfold UserRepository.update_user_status, bind, UserRepository.get_user_by_id, ret.
  destruct (find _ (users st)) as [u|]; simpl; [|auto].
  destruct (UserStatus_eqb _ _); simpl; [auto|].
  repeat split. apply map_update_first_same. reflexivity.
Qed.

Lemma service_update_user_status_state env user_id status admin ip st :
  let st' := snd (UserService.update_user_status env user_id status admin ip st) in
  map credentials (users st') = map credentials (users st) /\
  refresh_tokens st' = refresh_tokens st.
Proof.
  cbv zeta.
  pose proof (eq_refl (UserService.update_user_status env user_id status admin ip st)) as E.
  unfold UserService.update_user_status at 2 in E. unfold try_except in E.
  unfold bind at 1 in E. unfold UserRepository.get_user_by_id at 1 in E.
  destruct (find _ (users st)) as [u|]; [|rewrite E; simpl; auto].
  unfold bind at 1 in E.
  destruct (repo_update_user_status_state env user_id status st) as (Hu & Hr & _).
  destruct (UserRepository.update_user_status env user_id status st) as [[[v|]|e] st1];
    simpl in E, Hu, Hr; rewrite E; simpl; auto.
Qed.

(** X15: changing a user's status, to suspended or inactive as well,
    neither revokes a token nor blocks the account in the engine: login,
    refresh and verify answer after [update_user_status] exactly what they
    answered before it. *)
Theorem status_change_does_not_reach_tokens env0 user_id status admin ip0 st :
  let st' := snd (UserService.update_user_status env0 user_id status admin ip0 st) in
  (forall env d ip ua,
     fst (AuthService.login_user env d ip ua st') = fst (AuthService.login_user env d ip ua st)) /\
  (forall env t ip,
     fst (AuthService.refresh_access_token env t ip st')
     = fst (AuthService.refresh_access_token env t ip st)) /\
  (forall env token,
     fst (AuthService.verify_token env token st') = fst (AuthService.verify_token env token st)).
Proof.
  cbv zeta.
  destruct (service_update_user_status_state env0 user_id status admin ip0 st) as [Hu Hr].
  now apply outcomes_by_credentials.
Qed.

Lemma find_id_some user_id (l : list User.t) :
  (exists u, In u l /\ User.id u = user_id) ->
  exists u, find (fun x => String.eqb (User.id x) user_id) l = Some u.
Proof.
  intros (u0 & Hin & Hid).
  destruct (find _ l) eqn:F; [eauto|].
  pose proof (find_none _ _ F u0 Hin) as E. simpl in E.
  rewrite Hid, String.eqb_refl in E. discriminate.
Qed.

(** X16: [delete_user] never deletes.  The repository assigns the INACTIVE
    of [app/models/status_enum.py] to a column of the other enum, so for a
    user that exists the flush raises and the service answers "Error
    eliminando usuario: ..." with the text of that error.  Whatever the id,
    the answer is a failure and the state is exactly what it was: the row
    keeps its status and no audit call is made. *)
Theorem delete_user_never_takes_effect user_id admin ip st :
  snd (UserService.delete_user user_id admin ip st) = st /\
  (exists msg, fst (UserService.delete_user user_id admin ip st) = (false, msg)) /\
  ((exists u, In u (users st) /\ User.id u = user_id) ->
   fst (UserService.delete_user user_id admin ip st)
   = (false, "Error eliminando usuario: " ++ str (LookupError status_enum.INACTIVE))).
Proof.
  assert (E : UserService.delete_user user_id admin ip st =
              match find (fun x => String.eqb (User.id x) user_id) (users st) with
              | None => ((false, "Usuario no encontrado"), st)
              | Some _ =>
                  ((false, "Error eliminando usuario: "
                           ++ str (LookupError status_enum.INACTIVE)), st)
              end).
  { unfold UserService.delete_user, try_except.
    unfold bind at 1. unfold UserRepository.get_user_by_id at 1.
    destruct (find _ (users st)) as [u|] eqn:F; [|reflexivity].
    unfold bind at 1.
    unfold UserRepository.delete_user, bind, UserRepository.get_user_by_id.
    rewrite F. reflexivity. }
  rewrite E. split; [|split].
  - destruct (find _ (users st)); reflexivity.
  - destruct (find _ (users st)); eexists; reflexivity.
  - intros H. destruct (find_id_some user_id _ H) as [u ->]. reflexivity.
Qed.

(** X17: only the user or an administrator reads a full record.  For any
    other caller the answer is "No autorizado para ver estos datos" whether
    or not the requested id exists, so the check reveals nothing about the
    table; and every successful answer is for the requested id and was
    asked by that user or by the admin role. *)
Theorem full_data_only_for_owner_or_admin user_id requesting_user_id role st :
  (user_id <> requesting_user_id -> role <> "admin" ->
   UserService.get_user_full_data user_id requesting_user_id role st
   = ((false, "No autorizado para ver estos datos", None), st)) /\
  (forall msg r st',
     UserService.get_user_full_data user_id requesting_user_id role st
     = ((true, msg, Some r), st') ->
     (user_id = requesting_user_id \/ role = "admin") /\
     UserResponse.id r = user_id /\ st' = st).
Proof.
  unfold UserService.get_user_full_data, try_except. split.
  - intros H1 H2. apply String.eqb_neq in H1, H2. now rewrite H1, H2.
  - intros msg r st'.
    destruct (negb (String.eqb user_id requesting_user_id)
              && negb (String.eqb role "admin")) eqn:G; simpl; [discriminate|].
    unfold bind, UserRepository.get_user_by_id, ret.
    destruct (find _ (users st)) as [u|] eqn:F; [|discriminate].
    unfold UserService.respond_with_user, UserResponse_from_orm.
    destruct (User.created_at u); [|discriminate].
    destruct (User.updated_at u); [|discriminate].
    intros [= _ <- <-]. simpl.
    apply find_some in F as [_ E]. apply String.eqb_eq in E.
    repeat split; [|assumption].
    apply andb_false_iff in G. rewrite !negb_false_iff, !String.eqb_eq in G. exact G.
Qed.
End Administration.

(** Luis asks for Ana's account to be deleted. *)
Lemma delete_user_never_takes_effect_witness :
  demo.delete_user "u1" "u2" None demo.db
  = ((false, "Error eliminando usuario: value is not among the defined enum values"),
     demo.db).
Proof.
  destruct (@delete_user_never_takes_effect demo.txt "u1" "u2" None demo.db)
    as (Hs & _ & Hf).
  rewrite (surjective_pairing (demo.delete_user "u1" "u2" None demo.db)).
  unfold demo.delete_user. rewrite Hs, Hf; [reflexivity|].
  exists demo.u1. simpl. auto.
Defined.

(** Luis, a customer, asks for Ana's record and for a record that does not
    exist. *)
Lemma full_data_only_for_owner_or_admin_witness :
  demo.get_user_full_data "u1" "u2" "customer" demo.db
  = demo.get_user_full_data "u7" "u2" "customer" demo.db.
Proof.
  unfold demo.get_user_full_data.
  rewrite (proj1 (@full_data_only_for_owner_or_admin demo.txt demo.vtxt
                    "u1" "u2" "customer" demo.db)); [|discriminate|discriminate].
  rewrite (proj1 (@full_data_only_for_owner_or_admin demo.txt demo.vtxt
                    "u7" "u2" "customer" demo.db)); [|discriminate|discriminate].
  reflexivity.
Defined.

(** ** Looking a cedula up *)

Lemma filter_some_iff {A} (p : A -> bool) (l : list A) :
  match filter p l with [] => false | _ :: _ => true end = true <->
  exists x, In x l /\ p x = true.
Proof.
  destruct (filter p l) as [|y rest] eqn:F.
  - split; [discriminate|]. intros (x & Hin & Hp).
    assert (In x (filter p l)) as H by (apply filter_In; auto).
    rewrite F in H. contradiction.
  - split; [|reflexivity]. intros _. exists y. apply filter_In. rewrite F. now left.
Qed.

Section CedulaLookup.
Context {uuid : UuidParser}.

(** X18: [check_cedula_exists] answers whether some user has the cedula.
    With an id to exclude that parses as a UUID, rows with that id do not
    count; an id that is empty or does not parse is passed over without an
    error, and the check is then the plain one. *)
Theorem check_cedula_exists_exclusion cedula e st :
  (fst (UserRepository.check_cedula_exists cedula None st) = Returned true <->
   exists u, In u (users st) /\ User.cedula u = cedula) /\
  (e = "" \/ UUID e = None ->
   UserRepository.check_cedula_exists cedula (Some e) st
   = UserRepository.check_cedula_exists cedula None st) /\
  (forall canonical, e <> "" -> UUID e = Some canonical ->
     (fst (UserRepository.check_cedula_exists cedula (Some e) st) = Returned true <->
      exists u, In u (users st) /\ User.cedula u = cedula /\ User.id u <> canonical)).
Proof.
  unfold UserRepository.check_cedula_exists. simpl. split; [|split].
  - split.
    + intros [= H]. apply filter_some_iff in H as (u & Hin & Hp).
      apply String.eqb_eq in Hp. eauto.
    + intros (u & Hin & Hc). f_equal. apply filter_some_iff. exists u.
      split; [assumption|]. now apply String.eqb_eq.
  - intros [-> | H]; [reflexivity|].
    destruct e; [reflexivity|]. now rewrite H.
  - intros canonical Hne Hu. destruct e as [|c e]; [contradiction|]. rewrite Hu. split.
    + intros [= H]. apply filter_some_iff in H as (u & Hin & Hp).
      apply filter_In in Hin as [Hin Hc]. apply String.eqb_eq in Hc.
      apply negb_true_iff, String.eqb_neq in Hp. eauto.
    + intros (u & Hin & Hc & Hid). f_equal. apply filter_some_iff. exists u. split.
      * apply filter_In. split; [assumption|]. now apply String.eqb_eq.
      * apply negb_true_iff. now apply String.eqb_neq.
Qed.
End CedulaLookup.

(** Ana's cedula, excluding a string that is not a UUID: her own row counts. *)
Lemma check_cedula_exists_exclusion_witness :
  @UserRepository.check_cedula_exists demo.uuid "12345678" (Some "not-a-uuid") demo.db
  = @UserRepository.check_cedula_exists demo.uuid "12345678" None demo.db.
Proof.
  apply (proj1 (proj2 (@check_cedula_exists_exclusion demo.uuid
                         "12345678" "not-a-uuid" demo.db))).
  right. reflexivity.
Defined.

(** * Upload validation *)

Lemma ascii_lower_idem c : ascii_lower (ascii_lower c) = ascii_lower c.
Proof. destruct c as [[] [] [] [] [] [] [] []]; reflexivity. Qed.

Lemma ascii_lower_dot c : Ascii.eqb (ascii_lower c) "."%char = Ascii.eqb c "."%char.
Proof. destruct c as [[] [] [] [] [] [] [] []]; reflexivity. Qed.

Lemma lower_idem s : lower (lower s) = lower s.
Proof. induction s as [|c s IH]; simpl; [reflexivity|]. now rewrite ascii_lower_idem, IH. Qed.

Lemma lower_app s1 s2 : lower (s1 ++ s2) = lower s1 ++ lower s2.
Proof. induction s1 as [|c s1 IH]; simpl; [reflexivity|]. now rewrite IH. Qed.

Lemma split_not_nil sep s : split sep s <> [].
Proof.
  destruct s as [|c s]; simpl; [discriminate|].
  destruct (Ascii.eqb c sep); [discriminate|].
  destruct (split sep s); discriminate.
Qed.

(** Joining the pieces with the separator gives the string back. *)
Lemma concat_split sep s : String.concat (String sep EmptyString) (split sep s) = s.
Proof.
  induction s as [|c s IH]; simpl; [reflexivity|].
  destruct (Ascii.eqb c sep) eqn:E.
  - apply Ascii.eqb_eq in E. subst c.
    destruct (split sep s) as [|x xs] eqn:S; [now apply split_not_nil in S|].
    simpl. simpl in IH. now rewrite IH.
  - destruct (split sep s) as [|x xs] eqn:S; [now apply split_not_nil in S|].
    destruct xs as [|y ys]; simpl in *; now rewrite IH.
Qed.

Lemma string_app_assoc (a b c : string) : (a ++ b) ++ c = a ++ (b ++ c).
Proof. induction a as [|x a IH]; simpl; [reflexivity|]. now rewrite IH. Qed.

Lemma concat_ends_with_last sep (l : list string) d :
  l <> [] ->
  String.concat sep l = last l d \/
  exists p, String.concat sep l = p ++ sep ++ last l d.
Proof.
  induction l as [|x l IH]; intros Hne; [contradiction|].
  destruct l as [|y l]; [now left|].
  right. destruct IH as [IH|[p IH]]; [discriminate| |].
  - exists x. cbn [String.concat last] in *. now rewrite IH.
  - exists (x ++ sep ++ p). cbn [String.concat last] in *. rewrite IH.
    now rewrite !string_app_assoc.
Qed.

Lemma last_app_nonempty {A} (l1 l2 : list A) d :
  l2 <> [] -> last (l1 ++ l2)%list d = last l2 d.
Proof.
  intros H. induction l1 as [|x l1 IH]; [reflexivity|].
  simpl. destruct (l1 ++ l2)%list eqn:E; [|assumption].
  apply app_eq_nil in E as [_ ->]. contradiction.
Qed.

(** The piece after the last separator does not depend on what precedes it. *)
Lemma split_after_prefix sep p e :
  exists f0 fs, split sep (p ++ String sep e) = ((f0 :: fs) ++ split sep e)%list.
Proof.
  induction p as [|c p (f0 & fs & IH)]; simpl.
  - rewrite Ascii.eqb_refl. now exists EmptyString, [].
  - destruct (Ascii.eqb c sep).
    + exists EmptyString, (f0 :: fs). now rewrite IH.
    + rewrite IH. now exists (String c f0), fs.
Qed.

Lemma last_split_after_prefix sep p e d :
  last (split sep (p ++ String sep e)) d = last (split sep e) d.
Proof.
  destruct (split_after_prefix sep p e) as (f0 & fs & ->).
  apply last_app_nonempty, split_not_nil.
Qed.

(** No dot among the characters of a string. *)
Lemma split_no_sep sep e :
  ~ In sep (list_ascii_of_string e) -> split sep e = [e].
Proof.
  induction e as [|c e IH]; simpl; intros H; [reflexivity|].
  destruct (Ascii.eqb c sep) eqn:E.
  - apply Ascii.eqb_eq in E. exfalso. auto.
  - rewrite IH by tauto. reflexivity.
Qed.

Lemma lower_keeps_no_dot e :
  ~ In "."%char (list_ascii_of_string e) ->
  ~ In "."%char (list_ascii_of_string (lower e)).
Proof.
  induction e as [|c e IH]; simpl; [tauto|].
  intros H [Hc|Hin]; [|tauto].
  apply H. left. apply Ascii.eqb_eq. rewrite <- ascii_lower_dot.
  now apply Ascii.eqb_eq.
Qed.

Lemma validate_named name size :
  name <> "" ->
  FileService.validate_file_upload (UploadFile.mk (Some name) size) =
  if match size with
     | Some n => negb (n =? 0) && (5 * 1024 * 1024 <? n)
     | None => false
     end
  then (false, "Archivo demasiado grande (máximo 5MB)")
  else
    if negb (existsb (String.eqb ("." ++ last (split "."%char (lower name)) ""))
               FileService.allowed_extensions)
    then (false,
          "Tipo de archivo no permitido. Extensiones permitidas: "
          ++ String.concat ", " FileService.allowed_extensions)
    else (true, "Archivo válido").
Proof. destruct name; [contradiction|reflexivity]. Qed.

(** X19: what an accepted upload looks like.  It has a non-empty file name;
    its size, when known, is at most 5 MiB; and, letter case aside, the
    name is one of jpg, jpeg, png, webp or ends in a dot followed by one of
    them. *)
Theorem accepted_upload_shape file :
  fst (FileService.validate_file_upload file) = true ->
  exists name ext,
    UploadFile.filename file = Some name /\ name <> "" /\
    (forall n, UploadFile.size file = Some n -> n <= 5 * 1024 * 1024) /\
    In ext ["jpg"; "jpeg"; "png"; "webp"] /\
    (lower name = ext \/ exists p, lower name = p ++ "." ++ ext).
Proof.
  destruct file as [[name|] size]; [|discriminate].
  destruct (string_dec name "") as [->|Hne]; [discriminate|].
  rewrite (validate_named name size Hne).
  destruct (match size with
            | Some n => negb (n =? 0) && (5 * 1024 * 1024 <? n)
            | None => false
            end) eqn:S; [discriminate|].
  destruct (existsb _ FileService.allowed_extensions) eqn:X; [|discriminate].
  intros _. exists name, (last (split "."%char (lower name)) "").
  split; [reflexivity|]. split; [assumption|]. split; [|split].
  - simpl. intros n [= ->].
    apply andb_false_iff in S as [S|S].
    + apply negb_false_iff, Z.eqb_eq in S. lia.
    + apply Z.ltb_ge in S. lia.
  - apply existsb_exists in X as (a & Ha & E). apply String.eqb_eq in E.
    simpl in Ha.
    destruct Ha as [<-|[<-|[<-|[<-|[]]]]]; injection E as ->; simpl; auto.
  - pose proof (concat_split "."%char (lower name)) as C.
    destruct (concat_ends_with_last "." (split "."%char (lower name)) ""
                (split_not_nil _ _)) as [H|[p H]].
    + left. congruence.
    + right. exists p. congruence.
Qed.

(** X20: the verdict looks only at what follows the last dot.  Whatever
    precedes the dot, the file is judged like the bare extension, so
    "report.exe.png" passes wherever ".png" does; and a name with no dot at
    all is taken whole as the extension, so a file called "png" passes. *)
Theorem upload_verdict_reads_last_piece p e size :
  ~ In "."%char (list_ascii_of_string e) ->
  FileService.validate_file_upload (UploadFile.mk (Some (p ++ "." ++ e)) size)
  = FileService.validate_file_upload (UploadFile.mk (Some ("." ++ e)) size) /\
  (e <> "" ->
   FileService.validate_file_upload (UploadFile.mk (Some e) size)
   = FileService.validate_file_upload (UploadFile.mk (Some ("." ++ e)) size)).
Proof.
  intros Hdot.
  assert (Hlast : forall q,
            last (split "."%char (lower (q ++ String "."%char e))) "" = lower e).
  { intros q. rewrite lower_app. cbn [lower]. change (ascii_lower ".") with "."%char.
    rewrite last_split_after_prefix.
    now rewrite (split_no_sep _ _ (lower_keeps_no_dot e Hdot)). }
  pose proof (Hlast "") as H0. cbn [append] in H0.
  split.
  - rewrite !validate_named.
    + cbn [append]. now rewrite (Hlast p), H0.
    + discriminate.
    + destruct p; discriminate.
  - intros Hne. rewrite !validate_named; [|discriminate|assumption].
    cbn [append]. rewrite H0.
    now rewrite (split_no_sep _ _ (lower_keeps_no_dot e Hdot)).
Qed.

(** X21: the verdict does not depend on the letter case of the file name:
    two names that differ only in case get the same answer. *)
Theorem upload_verdict_ignores_case name1 name2 size :
  lower name1 = lower name2 ->
  FileService.validate_file_upload (UploadFile.mk (Some name1) size)
  = FileService.validate_file_upload (UploadFile.mk (Some name2) size).
Proof.
  intros H.
  destruct name1 as [|c1 n1], name2 as [|c2 n2]; try discriminate; [reflexivity|].
  rewrite !validate_named by discriminate. now rewrite H.
Qed.

Lemma accepted_upload_shape_witness :
  exists name ext,
    Some "Foto.Perfil.JPG" = Some name /\ In ext ["jpg"; "jpeg"; "png"; "webp"] /\
    (lower name = ext \/ exists p, lower name = p ++ "." ++ ext).
Proof.
  destruct (accepted_upload_shape (UploadFile.mk (Some "Foto.Perfil.JPG") (Some 1024)) eq_refl)
    as (name & ext & Hn & _ & _ & He & Hs).
  exists name, ext. auto.
Defined.

Lemma upload_verdict_reads_last_piece_witness :
  FileService.validate_file_upload (UploadFile.mk (Some "report.exe.png") None)
  = FileService.validate_file_upload (UploadFile.mk (Some ".png") None) /\
  FileService.validate_file_upload (UploadFile.mk (Some "png") None)
  = FileService.validate_file_upload (UploadFile.mk (Some ".png") None).
Proof.
  assert (~ In "."%char (list_ascii_of_string "png")) as H
    by (simpl; intuition discriminate).
  split.
  - exact (proj1 (upload_verdict_reads_last_piece "report.exe" "png" None H)).
  - apply (proj2 (upload_verdict_reads_last_piece "" "png" None H)). discriminate.
Defined.

Lemma upload_verdict_ignores_case_witness :
  FileService.validate_file_upload (UploadFile.mk (Some "SCAN.Png") (Some 10))
  = FileService.validate_file_upload (UploadFile.mk (Some "scan.png") (Some 10)).
Proof. apply upload_verdict_ignores_case. reflexivity. Defined.

(** * Rotation and verification of accounts *)

Section RefreshEffects.
Context {sec : security.t} {cfg : settings.t} {txt : ExceptionText}.

(** X22: a successful refresh revokes the row of the presented token and
    appends one row for the user the token's subject resolves to, holding
    the refresh token of the response, which is never the presented string
    again; users and audit trail are left as they are. *)
Theorem successful_refresh_effects env t ip st msg payload st' :
  AuthService.refresh_access_token env t ip st = ((true, msg, payload), st') ->
  exists u access_token new_token,
    In u (users st) /\
    subject (security.verify_token t "refresh" env) = Some (User.id u) /\
    payload = Some (TokenResponse.mk access_token (Some new_token) "bearer"
                      (settings.ACCESS_TOKEN_EXPIRE_MINUTES * 60)) /\
    refresh_tokens st'
    = (mark_revoked t (refresh_tokens st) ++
       [RefreshToken.mk (uuid4 env) (User.id u) new_token
          (utcnow env + settings.REFRESH_TOKEN_EXPIRE_DAYS * 86400)
          false (Some (func_now env)) ip])%list /\
    new_token <> t /\
    users st' = users st /\ audit_calls st' = audit_calls st.
Proof.
  rewrite refresh_unfold. cbv zeta.
  destruct (truthy_dict _); [|discriminate].
  destruct (find _ (refresh_tokens st)) as [row|] eqn:F; [|discriminate].
  destruct (user_of_subject _ st) as [u|] eqn:U; [|discriminate].
  destruct (RefreshTokenRepository.violated_constraint _ _) eqn:Hc; [discriminate|].
  intros [= _ <- <-].
  unfold user_of_subject in U.
  destruct (subject (security.verify_token t "refresh" env)) as [i|]; [|discriminate].
  apply find_some in U as [Hin E]. apply String.eqb_eq in E.
  exists u. do 2 eexists. repeat split; try eassumption; try reflexivity.
  - now rewrite E.
  - intros Heq. apply (no_violation_fresh_token _ _ Hc). simpl. rewrite Heq.
    rewrite mark_revoked_tokens.
    apply find_some in F as [Hrow Hact]. apply is_active_usable in Hact as (<- & _).
    now apply in_map.
Qed.
End RefreshEffects.

Lemma successful_refresh_effects_witness :
  exists u access_token new_token,
    In u (users demo.db) /\
    refresh_tokens (snd (demo.refresh (demo.at_time 10 "2") "rt-1" None demo.db))
    = (mark_revoked "rt-1" (refresh_tokens demo.db) ++
       [RefreshToken.mk "id-2" (User.id u) new_token (10 + 7 * 86400) false (Some 10) None])%list /\
    new_token <> "rt-1" /\ access_token = "at-2".
Proof.
  destruct (@successful_refresh_effects demo.sec demo.cfg demo.txt
              (demo.at_time 10 "2") "rt-1" None demo.db
              "Token renovado exitosamente"
              (Some (TokenResponse.mk "at-2" (Some "rt-2") "bearer" 1800))
              (snd (demo.refresh (demo.at_time 10 "2") "rt-1" None demo.db))
              eq_refl)
    as (u & a & n & Hin & _ & Hp & Hrows & Hne & _).
  exists u, a, n. repeat split; try assumption.
  injection Hp as -> _. reflexivity.
Defined.

Section Verification.
Context {txt : ExceptionText} {vtxt : ValidationText}.

(** X23: [verify_user] never verifies.  The repository assigns the ACTIVE
    of [app/models/status_enum.py] to a column of the other enum, so for a
    user that exists the flush raises and the service answers "Error
    verificando usuario: ..." with the text of that error.  Whatever the
    id, the answer is a failure without a user record and the state is
    exactly what it was: neither [is_verified] nor [status] is written and
    no audit call is made. *)
Theorem verify_user_never_takes_effect user_id admin ip st :
  snd (UserService.verify_user user_id admin ip st) = st /\
  (exists msg, fst (UserService.verify_user user_id admin ip st) = (false, msg, None)) /\
  ((exists u, In u (users st) /\ User.id u = user_id) ->
   fst (UserService.verify_user user_id admin ip st)
   = (false, "Error verificando usuario: " ++ str (LookupError status_enum.ACTIVE), None)).
Proof.
  assert (E : UserService.verify_user user_id admin ip st =
              match find (fun x => String.eqb (User.id x) user_id) (users st) with
              | None => ((false, "Usuario no encontrado", None), st)
              | Some _ =>
                  ((false, "Error verificando usuario: "
                           ++ str (LookupError status_enum.ACTIVE), None), st)
              end).
  { unfold UserService.verify_user, try_except.
    unfold bind at 1. unfold UserRepository.get_user_by_id at 1.
    destruct (find _ (users st)) as [u|] eqn:F; [|reflexivity].
    unfold bind at 1.
    unfold UserRepository.verify_user, bind, UserRepository.get_user_by_id.
    rewrite F. reflexivity. }
  rewrite E. split; [|split].
  - destruct (find _ (users st)); reflexivity.
  - destruct (find _ (users st)); eexists; reflexivity.
  - intros H. destruct (find_id_some user_id _ H) as [u ->]. reflexivity.
Qed.
End Verification.

(** An administrator verifies Luis. *)
Lemma verify_user_never_takes_effect_witness :
  @UserService.verify_user demo.txt demo.vtxt "u2" "u1" None demo.db
  = ((false, "Error verificando usuario: value is not among the defined enum values",
      None), demo.db).
Proof.
  destruct (@verify_user_never_takes_effect demo.txt demo.vtxt "u2" "u1" None demo.db)
    as (Hs & _ & Hf).
  rewrite (surjective_pairing (@UserService.verify_user demo.txt demo.vtxt "u2" "u1" None demo.db)).
  rewrite Hs, Hf; [reflexivity|].
  exists demo.u2. simpl. auto.
Defined.
